(** * MediaFire batch downloader: a shallow embedding of [downloader.py]

    The development follows the layout of the script:
    - [PyStr]: the Python [str] operations the script relies on
      ([strip], the [in] operator, truthiness);
    - the link list built by [main] from the lines of the input file;
    - the browser, console and file system as an interface of typed calls,
      answered by an arbitrary environment, with a log of every call issued;
    - [close_popup_tabs], [is_page_invalid], [find_download_button],
      [process_link] and [main] as programs over that interface. *)

From Stdlib Require Import String Ascii List NArith ZArith Bool Arith Lia Sorted.
Import ListNotations.

(** ** Python strings *)

Module PyStr.

(** A [str] is a sequence of Unicode code points. *)
Definition char := N.
Definition str := list char.

(** A literal of the script, written with Rocq's string notation. *)
Definition lit (s : string) : str := map N_of_ascii (list_ascii_of_string s).

Definition in_range (lo hi c : char) : bool := (lo <=? c)%N && (c <=? hi)%N.

(** [str.isspace] on one code point: the white-space table of CPython
    (U+0009..000D, U+001C..0020, U+0085, U+00A0, U+1680, U+2000..200A,
    U+2028, U+2029, U+202F, U+205F, U+3000). *)
Definition isspace (c : char) : bool :=
  (in_range 9 13 c || in_range 28 32 c || (c =? 133) || (c =? 160)
   || (c =? 5760) || in_range 8192 8202 c || (c =? 8232)
   || (c =? 8233) || (c =? 8239) || (c =? 8287) || (c =? 12288))%N.

Fixpoint lstrip (s : str) : str :=
  match s with
  | [] => []
  | c :: r => if isspace c then lstrip r else s
  end.

Definition rstrip (s : str) : str := rev (lstrip (rev s)).

(** [s.strip()] with no argument. *)
Definition strip (s : str) : str := rstrip (lstrip s).

(** Truth value of a string in a condition: non-empty. *)
Definition truthy (s : str) : bool :=
  match s with [] => false | _ :: _ => true end.

Fixpoint eqb (a b : str) : bool :=
  match a, b with
  | [], [] => true
  | x :: a', y :: b' => (x =? y)%N && eqb a' b'
  | _, _ => false
  end.

Fixpoint startswith (p s : str) : bool :=
  match p, s with
  | [], _ => true
  | x :: p', y :: s' => (x =? y)%N && startswith p' s'
  | _ :: _, [] => false
  end.

(** [needle in haystack]. *)
Fixpoint contains (needle haystack : str) : bool :=
  startswith needle haystack
  || match haystack with
     | [] => false
     | _ :: rest => contains needle rest
     end.

(** A line is blank when every code point of it is white space (the empty
    line included). *)
Definition blank (s : str) : bool := forallb isspace s.

End PyStr.

Import PyStr.

(** ** The link list of [main] *)

Fixpoint enumerate {A : Type} (start : nat) (l : list A) : list (nat * A) :=
  match l with
  | [] => []
  | x :: r => (start, x) :: enumerate (S start) r
  end.

(** [[(i + 1, line.strip()) for i, line in enumerate(raw_lines) if line.strip()]] *)
Definition links_of (raw_lines : list str) : list (nat * str) :=
  map (fun p => (fst p + 1, strip (snd p)))
      (filter (fun p => truthy (strip (snd p))) (enumerate 0 raw_lines)).

(** Number of lines of the file that are not blank. *)
Definition non_blank_lines (raw_lines : list str) : nat :=
  length (filter (fun l => negb (blank l)) raw_lines).

(** ** Exceptions and results *)

(** The exceptions the script can meet.  [TimeoutException] and
    [NoSuchElementException] are subclasses of selenium's
    [WebDriverException]; [WebDriverException] stands for every other
    selenium error.  [KeyboardInterrupt] and [SystemExit] are not
    subclasses of [Exception]. *)
Inductive exn : Type :=
| TimeoutException (msg : str)
| NoSuchElementException (msg : str)
| WebDriverException (msg : str)
| KeyboardInterrupt
| EOFError
| SystemExit (code : Z)
| OtherException (text : str).

Definition is_TimeoutException (e : exn) : bool :=
  match e with TimeoutException _ => true | _ => false end.

Definition is_NoSuchElementException (e : exn) : bool :=
  match e with NoSuchElementException _ => true | _ => false end.

Definition is_WebDriverException (e : exn) : bool :=
  match e with
  | TimeoutException _ | NoSuchElementException _ | WebDriverException _ => true
  | _ => false
  end.

Definition is_KeyboardInterrupt (e : exn) : bool :=
  match e with KeyboardInterrupt => true | _ => false end.

(** [isinstance(e, Exception)] *)
Definition is_Exception (e : exn) : bool :=
  match e with KeyboardInterrupt | SystemExit _ => false | _ => true end.

(** [exc.msg] of a selenium error. *)
Definition exn_msg (e : exn) : str :=
  match e with
  | TimeoutException m | NoSuchElementException m | WebDriverException m => m
  | _ => []
  end.

Inductive result (A : Type) : Type :=
| Ok (a : A)
| Raise (e : exn).
Arguments Ok {A} a.
Arguments Raise {A} e.

(** ** The calls the script makes on its collaborators *)

Definition handle := str.
Definition selector := str.
(** A [WebElement] reference. *)
Definition element := N.

Inductive call : Type -> Type :=
| IsFile (path : str) : call bool                      (* os.path.isfile *)
| ReadLines (path : str) : call (list str)             (* open(...).readlines() *)
| BuildDriver (page_timeout : Z) : call unit           (* build_driver() *)
| CurrentWindowHandle : call handle
| Get (url : str) : call unit                          (* driver.get *)
| WindowHandles : call (list handle)
| SwitchToWindow (h : handle) : call unit              (* driver.switch_to.window *)
| CloseWindow : call unit                              (* driver.close: the focused window *)
| PageSource : call str
| WaitPresence (seconds : Z) (sel : selector) : call unit
                               (* WebDriverWait(...).until(presence_of_element_located) *)
| FindElement (sel : selector) : call element          (* driver.find_element(By.CSS_SELECTOR, _) *)
| IsDisplayed (el : element) : call bool
| Click (el : element) : call unit
| Sleep (milliseconds : Z) : call unit                 (* time.sleep *)
| QuitDriver : call unit.                              (* driver.quit *)

(** What the script runs on: a world that answers every call (and may
    change while doing so), and the two library functions whose tables are
    not part of the script: [str.lower] and [str(exc)]. *)
Class Runtime : Type := {
  World : Type;
  answer : forall T : Type, call T -> World -> World * result T;
  lower : str -> str;
  exn_str : exn -> str
}.
Arguments answer {Runtime} {T} c w.

(** ** Console and log *)

(** What the operator types at a prompt: a line (without its newline) or
    Ctrl-C. *)
Inductive key : Type :=
| Line (s : str)
| CtrlC.

Inductive level : Type := DEBUG | INFO | WARNING.

(** An argument of a [%s] / [%d] logging format. *)
Inductive arg : Type :=
| AStr (s : str)
| AInt (n : nat).

(** Everything observable, in the order it happens. *)
Inductive entry : Type :=
| Called (T : Type) (c : call T) (r : result T)
| Logged (lvl : level) (fmt : str) (args : list arg)
| Printed (s : str)
| Prompted (prompt : str) (typed : result str).
Arguments Called {T} c r.

(** ** Configuration *)

Definition DOWNLOAD_BUTTON_SELECTORS : list selector :=
  [ lit "a#downloadButton";
    lit "a[id='downloadButton']";
    lit "a.download_link";
    lit "div.download_link a";
    lit "a[aria-label*='Download']" ].

Definition INVALID_PAGE_TEXTS : list str :=
  [ lit "invalid or deleted";
    lit "file not found";
    lit "this file has been deleted";
    lit "unavailable";
    lit "error occurred" ].

(** Literals with characters outside ASCII, by code point. *)
Definition em_dash : char := 8212%N.
Definition box_line : char := 9472%N.
Definition pointer : char := 9658%N.
Definition cross : char := 10008%N.

Definition MSG_TIMED_OUT : str := lit "Page load timed out".
Definition MSG_INVALID : str := lit "MediaFire reports file as invalid or deleted".
Definition MSG_NOT_FOUND : str := lit "Download button not found on page".
Definition PROMPT_SHUTDOWN : str := lit "  Finish downloads and close browser? [y/N]: ".
Definition PROMPT_SAVED : str :=
  lit "  " ++ pointer :: lit " Press ENTER when you have saved the file (or skipped it)... ".
Definition PROMPT_NEXT : str :=
  lit "  " ++ pointer :: lit " Press ENTER to continue to the next link... ".
Definition WARN_NO_LINKS : str := lit "No links found in file. Exiting.".

(** ** The program *)

Section Program.
Context {R : Runtime}.

(** The state a run threads: the world, what is still to be typed on the
    console, the global [PAGE_TIMEOUT] and the trace of what happened. *)
Record state : Type := {
  world : World;
  stdin : list key;
  PAGE_TIMEOUT : Z;
  trace : list entry
}.

(** A computation changes the state and returns a value or raises. *)
Definition M (A : Type) : Type := state -> state * result A.

Definition ret {A : Type} (a : A) : M A := fun s => (s, Ok a).

Definition raise {A : Type} (e : exn) : M A := fun s => (s, Raise e).

Definition bind {A B : Type} (m : M A) (k : A -> M B) : M B :=
  fun s =>
    match m s with
    | (s1, Ok a) => k a s1
    | (s1, Raise e) => (s1, Raise e)
    end.

Notation "x <- m ;; k" := (bind m (fun x => k))
  (at level 61, m at next level, right associativity).
Notation "m ;; k" := (bind m (fun _ => k))
  (at level 61, right associativity).

Definition record (e : entry) (s : state) : state :=
  {| world := world s; stdin := stdin s;
     PAGE_TIMEOUT := PAGE_TIMEOUT s; trace := trace s ++ [e] |}.

(** One call on the world, recorded with its answer. *)
Definition perform {T : Type} (c : call T) : M T :=
  fun s =>
    let (w, r) := answer c (world s) in
    (record (Called c r)
       {| world := w; stdin := stdin s;
          PAGE_TIMEOUT := PAGE_TIMEOUT s; trace := trace s |}, r).

Definition print (text : str) : M unit :=
  fun s => (record (Printed text) s, Ok tt).

Definition log (lvl : level) (fmt : str) (args : list arg) : M unit :=
  fun s => (record (Logged lvl fmt args) s, Ok tt).

(** [input(prompt)]: at the end of the input it raises [EOFError]. *)
Definition input (prompt : str) : M str :=
  fun s =>
    let typed :=
      match stdin s with
      | [] => Raise EOFError
      | CtrlC :: _ => Raise KeyboardInterrupt
      | Line l :: _ => Ok l
      end in
    (record (Prompted prompt typed)
       {| world := world s; stdin := tl (stdin s);
          PAGE_TIMEOUT := PAGE_TIMEOUT s; trace := trace s |}, typed).

Definition get_PAGE_TIMEOUT : M Z := fun s => (s, Ok (PAGE_TIMEOUT s)).

Definition set_PAGE_TIMEOUT (t : Z) : M unit :=
  fun s =>
    ({| world := world s; stdin := stdin s;
        PAGE_TIMEOUT := t; trace := trace s |}, Ok tt).

(** [try: m  except ...: ...]: the handler answers [None] for an exception
    no clause catches. *)
Definition try_except {A : Type} (m : M A) (handler : exn -> option (M A)) : M A :=
  fun s =>
    match m s with
    | (s1, Ok a) => (s1, Ok a)
    | (s1, Raise e) =>
        match handler e with
        | Some k => k s1
        | None => (s1, Raise e)
        end
    end.

(** [try: m  except WebDriverException: pass] *)
Definition pass_WebDriverException (m : M unit) : M unit :=
  try_except m (fun e => if is_WebDriverException e then Some (ret tt) else None).

(** *** Tab / popup helpers *)

(** The loop of [close_popup_tabs] over the handles listed. *)
Fixpoint close_each (keep_handle : handle) (handles : list handle) : M unit :=
  match handles with
  | [] => ret tt
  | h :: rest =>
      (if PyStr.eqb h keep_handle then ret tt
       else pass_WebDriverException
              (perform (SwitchToWindow h) ;;
               perform CloseWindow ;;
               log DEBUG (lit "  [popup] Closed extra tab: %s") [AStr h])) ;;
      close_each keep_handle rest
  end.

Definition close_popup_tabs (keep_handle : handle) : M unit :=
  handles <- perform WindowHandles ;;
  close_each keep_handle handles ;;
  pass_WebDriverException (perform (SwitchToWindow keep_handle)).

(** *** Page helpers *)

(** [any(p in driver.page_source.lower() for p in phrases)]: the page
    source is read again for every phrase tried. *)
Fixpoint any_phrase (phrases : list str) : M bool :=
  match phrases with
  | [] => ret false
  | p :: rest =>
      src <- perform PageSource ;;
      if contains p (lower src) then ret true else any_phrase rest
  end.

Definition is_page_invalid : M bool := any_phrase INVALID_PAGE_TEXTS.

(** One turn of the loop of [find_download_button]: the button when the
    selector gives a displayed element, [None] to go on. *)
Definition try_selector (sel : selector) : M (option element) :=
  try_except
    (btn <- perform (FindElement sel) ;;
     shown <- perform (IsDisplayed btn) ;;
     ret (if shown then Some btn else None))
    (fun e => if is_NoSuchElementException e then Some (ret None) else None).

Fixpoint find_among (selectors : list selector) : M (option element) :=
  match selectors with
  | [] => ret None
  | sel :: rest =>
      found <- try_selector sel ;;
      match found with
      | Some btn => ret (Some btn)
      | None => find_among rest
      end
  end.

Definition find_download_button : M (option element) :=
  find_among DOWNLOAD_BUTTON_SELECTORS.

(** *** Single-link routine *)

(** The wait for the first selector: a timeout is passed over. *)
Definition await_download_button : M unit :=
  try_except
    (seconds <- get_PAGE_TIMEOUT ;;
     perform (WaitPresence seconds (nth 0 DOWNLOAD_BUTTON_SELECTORS [])))
    (fun e => if is_TimeoutException e then Some (ret tt) else None).

Definition process_link (url : str) (main_handle : handle) : M (bool * str) :=
  loaded <- try_except
              (perform (Get url) ;; ret None)
              (fun e =>
                 if is_TimeoutException e
                 then Some (ret (Some (false, MSG_TIMED_OUT)))
                 else if is_WebDriverException e
                 then Some (ret (Some (false, lit "WebDriver error: " ++ exn_msg e)))
                 else None) ;;
  match loaded with
  | Some outcome => ret outcome
  | None =>
      close_popup_tabs main_handle ;;
      invalid <- is_page_invalid ;;
      if invalid then ret (false, MSG_INVALID)
      else
        await_download_button ;;
        btn <- find_download_button ;;
        match btn with
        | None => ret (false, MSG_NOT_FOUND)
        | Some b =>
            clicked <- try_except
                         (perform (Click b) ;; ret None)
                         (fun e =>
                            if is_Exception e
                            then Some (ret (Some (false,
                                   lit "Could not click download button: " ++ exn_str e)))
                            else None) ;;
            match clicked with
            | Some outcome => ret outcome
            | None =>
                perform (Sleep 1500) ;;
                close_popup_tabs main_handle ;;
                ret (true, lit "OK")
            end
        end
  end.

(** *** Main *)

(** [argparse]'s namespace. *)
Record Namespace : Type := {
  links_file : option str;
  timeout : Z
}.

(** The locals of [main] the loop updates. *)
Record counters : Type := {
  success_count : nat;
  failed_links : list (nat * str * str)
}.

(** The figures of the end-of-run summary. *)
Record summary : Type := {
  total_links : nat;
  processed : nat;
  successful : nat;
  failed_count : nat;
  failures : list (nat * str * str)
}.

(** What [main] does with one link after [process_link] has returned: the
    counters are updated before the prompt is shown. *)
Definition record_outcome (line_no : nat) (url : str) (outcome : bool * str)
    (c : counters) : counters :=
  if fst outcome
  then {| success_count := success_count c + 1; failed_links := failed_links c |}
  else {| success_count := success_count c;
          failed_links := failed_links c ++ [(line_no, url, snd outcome)] |}.

Definition acknowledge (outcome : bool * str) : M unit :=
  if fst outcome
  then
    print [] ;;
    print (lit "  " ++ pointer :: lit " Save As dialog is open in Chrome.") ;;
    print (lit "    Choose your save location, then come back here.") ;;
    input PROMPT_SAVED ;;
    print []
  else
    log WARNING (lit "  " ++ cross :: lit "  FAILED " ++ em_dash :: lit " %s")
        [AStr (snd outcome)] ;;
    print [] ;;
    input PROMPT_NEXT ;;
    print [].

(** The [for idx, (line_no, url) in enumerate(links, start=1)] loop.  An
    exception leaves the loop with the counters as they stand. *)
Fixpoint for_links (main_handle : handle) (total idx : nat)
    (links : list (nat * str)) (c : counters) (s : state)
    : state * (counters * result unit) :=
  match links with
  | [] => (s, (c, Ok tt))
  | (line_no, url) :: rest =>
      match (print (repeat box_line 60) ;;
             log INFO (lit "[%d/%d] Line %d: %s")
                 [AInt idx; AInt total; AInt line_no; AStr url] ;;
             process_link url main_handle) s with
      | (s1, Raise e) => (s1, (c, Raise e))
      | (s1, Ok outcome) =>
          let c1 := record_outcome line_no url outcome c in
          match acknowledge outcome s1 with
          | (s2, Raise e) => (s2, (c1, Raise e))
          | (s2, Ok _) => for_links main_handle total (S idx) rest c1 s2
          end
      end
  end.

(** Is the answer typed at the shutdown prompt the affirmative one? *)
Definition affirmative (typed : str) : bool :=
  PyStr.eqb (lower (strip typed)) (lit "y").

(** The [while True] loop of the shutdown prompt.  Every turn reads one
    line, so [fuel] turns are enough when [fuel] exceeds what is left on the
    console (see [shutdown_prompt]). *)
Fixpoint shutdown_loop (fuel : nat) : M unit :=
  match fuel with
  | O => raise EOFError
  | S n =>
      typed <- input PROMPT_SHUTDOWN ;;
      let answer := lower (strip typed) in
      if PyStr.eqb answer (lit "y") then ret tt
      else
        (if PyStr.eqb answer (lit "n") || PyStr.eqb answer []
         then print (lit "  Still waiting... (check your downloads in Chrome)")
         else print (lit "  Please type  y  to close or just press ENTER to keep waiting.")) ;;
        shutdown_loop n
  end.

Definition shutdown_prompt : M unit :=
  fun s => shutdown_loop (S (length (stdin s))) s.

(** The links file: the argument, or the answer to a prompt when it is
    missing or empty. *)
Definition resolve_links_file (args : Namespace) : M str :=
  match links_file args with
  | Some path =>
      if truthy path then ret path
      else typed <- input (lit "Enter path to links .txt file: ") ;; ret (strip typed)
  | None => typed <- input (lit "Enter path to links .txt file: ") ;; ret (strip typed)
  end.

(** The [try: for ...  except KeyboardInterrupt: ...] block of [main]:
    Ctrl-C ends the loop and keeps the counters; any other exception goes
    on. *)
Definition run_links (main_handle : handle) (total : nat)
    (links : list (nat * str)) : M counters :=
  fun s =>
    match for_links main_handle total 1 links
            {| success_count := 0; failed_links := [] |} s with
    | (s1, (c, Ok _)) => (s1, Ok c)
    | (s1, (c, Raise e)) =>
        if is_KeyboardInterrupt e
        then (print [] ;; log WARNING (lit "Interrupted by user.") [] ;; ret c) s1
        else (s1, Raise e)
    end.

(** [main] from the launch of the browser on, up to the figures of the
    summary (the rendering of the summary text and its write to the log file
    are left out). *)
Definition session (total : nat) (links : list (nat * str)) : M summary :=
  seconds <- get_PAGE_TIMEOUT ;;
  perform (BuildDriver seconds) ;;
  main_handle <- perform CurrentWindowHandle ;;
  c <- run_links main_handle total links ;;
  print [] ;;
  print (repeat 61%N 60) ;;
  print (lit "  All links have been processed.") ;;
  print (lit "  The browser will stay open so your downloads can finish.") ;;
  print [] ;;
  shutdown_prompt ;;
  perform QuitDriver ;;
  print [] ;;
  log INFO (lit "Browser closed by user.") [] ;;
  let failed := length (failed_links c) in
  ret {| total_links := total;
         processed := success_count c + failed;
         successful := success_count c;
         failed_count := failed;
         failures := failed_links c |}.

Definition main (args : Namespace) : M summary :=
  set_PAGE_TIMEOUT (timeout args) ;;
  path <- resolve_links_file args ;;
  is_file <- perform (IsFile path) ;;
  if negb is_file
  then print (lit "ERROR: File not found: " ++ path) ;; raise (SystemExit 1)
  else
    raw_lines <- perform (ReadLines path) ;;
    let links := links_of raw_lines in
    let total := length links in
    log INFO (repeat 61%N 60) [] ;;
    log INFO (lit "Session started  |  Links to process: %d") [AInt total] ;;
    log INFO (repeat 61%N 60) [] ;;
    print [] ;;
    print (lit "  Each link will open in Chrome and click Download automatically.") ;;
    print (lit "  A Save As dialog will appear " ++ em_dash
             :: lit " choose your folder and filename.") ;;
    print (lit "  After saving, come back here and press ENTER to continue.") ;;
    print [] ;;
    if Nat.eqb total 0
    then log WARNING WARN_NO_LINKS [] ;; raise (SystemExit 0)
    else session total links.

End Program.

(** How a run of the script ends: through [sys.exit], by returning from
    [main] (status 0), or with an exception nobody caught. *)
Inductive termination : Type :=
| Exit (code : Z)
| Uncaught (e : exn).

Definition terminate {A : Type} (r : result A) : termination :=
  match r with
  | Ok _ => Exit 0
  | Raise (SystemExit code) => Exit code
  | Raise e => Uncaught e
  end.

(** ** Reading a trace *)

(** A call of the control search of [process_link]: the wait for the
    download control, the selector search, the click. *)
Definition control_search (e : entry) : bool :=
  match e with
  | Called c _ =>
      match c with
      | WaitPresence _ _ | FindElement _ | IsDisplayed _ | Click _ => true
      | _ => false
      end
  | _ => false
  end.

Definition is_click (e : entry) : bool :=
  match e with
  | Called c _ => match c with Click _ => true | _ => false end
  | _ => false
  end.

Definition is_launch (e : entry) : bool :=
  match e with
  | Called c _ => match c with BuildDriver _ => true | _ => false end
  | _ => false
  end.

Definition is_quit (e : entry) : bool :=
  match e with
  | Called c _ => match c with QuitDriver => true | _ => false end
  | _ => false
  end.

(** [os.path.isfile] answered [False]. *)
Definition file_missing (e : entry) : bool :=
  match e with
  | Called c r =>
      match c in call T return result T -> bool with
      | IsFile _ => fun r => match r with Ok false => true | _ => false end
      | _ => fun _ => false
      end r
  | _ => false
  end.

(** The lines a successful [readlines] gave. *)
Definition lines_read (e : entry) : option (list str) :=
  match e with
  | Called c r =>
      match c in call T return result T -> option (list str) with
      | ReadLines _ => fun r => match r with Ok raw => Some raw | Raise _ => None end
      | _ => fun _ => None
      end r
  | _ => None
  end.

(** The window a successful [switch_to.window] moved the focus to. *)
Definition switched_to (e : entry) : option handle :=
  match e with
  | Called c r =>
      match c in call T return result T -> option handle with
      | SwitchToWindow h => fun r => match r with Ok _ => Some h | Raise _ => None end
      | _ => fun _ => None
      end r
  | _ => None
  end.

Definition is_close (e : entry) : bool :=
  match e with
  | Called c _ => match c with CloseWindow => true | _ => false end
  | _ => false
  end.

(** [close_popup_tabs] only lists, switches to and closes windows. *)
Definition window_entry (e : entry) : bool :=
  match e with
  | Called c _ =>
      match c with
      | WindowHandles | SwitchToWindow _ | CloseWindow => true
      | _ => false
      end
  | Logged DEBUG _ _ => true
  | _ => false
  end.

(** What [process_link url _] may add to the trace: driver calls on the
    page and the windows, with [url] the only address loaded, and the debug
    lines of the popup helper. *)
Definition link_entry (url : str) (e : entry) : bool :=
  match e with
  | Called c _ =>
      match c with
      | Get u => PyStr.eqb u url
      | WindowHandles | SwitchToWindow _ | CloseWindow | PageSource
      | WaitPresence _ _ | FindElement _ | IsDisplayed _ | Click _ | Sleep _ => true
      | _ => false
      end
  | Logged DEBUG _ _ => true
  | _ => false
  end.

(** What the per-link loop over [urls] may add: what [process_link] may for
    one of the addresses, console output, log lines and prompts. *)
Definition loop_entry (urls : list str) (e : entry) : bool :=
  match e with
  | Called _ _ => existsb (fun url => link_entry url e) urls
  | _ => true
  end.

(** The windows [driver.close()] was called on, replaying the focus along
    the trace ([None]: a window this trace did not switch to). *)
Fixpoint closed_under (focus : option handle) (tr : list entry) : list (option handle) :=
  match tr with
  | [] => []
  | e :: rest =>
      if is_close e then focus :: closed_under None rest
      else match switched_to e with
           | Some h => closed_under (Some h) rest
           | None => closed_under focus rest
           end
  end.

Definition is_exit (e : exn) : bool :=
  match e with SystemExit _ => true | _ => false end.

(** An entry that is no answer of the file system, no launch and no quit of
    the browser. *)
Definition quiet (e : entry) : bool :=
  match e with
  | Called c _ =>
      match c with
      | IsFile _ | ReadLines _ | BuildDriver _ | QuitDriver => false
      | _ => true
      end
  | _ => true
  end.

(** An entry that is no call on the file system. *)
Definition not_file_call (e : entry) : bool :=
  match e with
  | Called c _ =>
      match c with
      | IsFile _ | ReadLines _ => false
      | _ => true
      end
  | _ => true
  end.

(** [url] is not empty and neither starts nor ends with white space. *)
Definition no_surrounding_space (url : str) : Prop :=
  url <> []
  /\ (forall c rest, url = c :: rest -> isspace c = false)
  /\ (forall c rest, url = rest ++ [c] -> isspace c = false).

(** The number of outcomes the loop has counted: successes and recorded
    failures. *)
Definition outcomes (c : counters) : nat :=
  success_count c + length (failed_links c).

(** A prompt of the per-link loop: one is shown for every link whose
    [process_link] call returned. *)
Definition is_acknowledgment (e : entry) : bool :=
  match e with
  | Prompted p _ => PyStr.eqb p PROMPT_SAVED || PyStr.eqb p PROMPT_NEXT
  | _ => false
  end.

Definition acknowledgments (tr : list entry) : nat :=
  length (filter is_acknowledgment tr).

(** ** A scripted runtime

    A small stand-in for the browser, the console and the file system, for
    running the script on concrete inputs: one page, a fixed set of windows,
    and faults planted on chosen calls. *)

(** [str.lower] on ASCII letters (code points outside A..Z unchanged). *)
Definition ascii_lower (s : str) : str :=
  map (fun c => if in_range 65%N 90%N c then (c + 32)%N else c) s.

Record script : Type := {
  file_present : bool;
  file_lines : list str;
  open_windows : list handle;
  page_text : str;
  matches : selector -> option element;
  shown : element -> bool;
  fault : forall T : Type, call T -> option exn
}.

Definition scripted_answer (sc : script) (T : Type) (c : call T) : result T :=
  match fault sc T c with
  | Some e => Raise e
  | None =>
      match c in call T return result T with
      | IsFile _ => Ok (file_present sc)
      | ReadLines _ => Ok (file_lines sc)
      | BuildDriver _ => Ok tt
      | CurrentWindowHandle => Ok (hd [] (open_windows sc))
      | Get _ => Ok tt
      | WindowHandles => Ok (open_windows sc)
      | SwitchToWindow _ => Ok tt
      | CloseWindow => Ok tt
      | PageSource => Ok (page_text sc)
      | WaitPresence _ _ => Ok tt
      | FindElement sel =>
          match matches sc sel with
          | Some el => Ok el
          | None => Raise (NoSuchElementException (lit "no such element"))
          end
      | IsDisplayed el => Ok (shown sc el)
      | Click _ => Ok tt
      | Sleep _ => Ok tt
      | QuitDriver => Ok tt
      end
  end.

Definition scripted (sc : script) : Runtime :=
  {| World := unit;
     answer := fun T c w => (w, scripted_answer sc T c);
     lower := ascii_lower;
     exn_str := exn_msg |}.

Definition no_fault (T : Type) (c : call T) : option exn := None.

(** The state a scripted run starts in. *)
Definition start (sc : script) (keys : list key) : @state (scripted sc) :=
  @Build_state (scripted sc) tt keys 30%Z [].

(** *** Scripts *)

Definition main_tab : handle := lit "main".
Definition ad_tab_1 : handle := lit "ad-1".
Definition ad_tab_2 : handle := lit "ad-2".

Definition hidden_link : element := 3%N.
Definition button : element := 7%N.

(** A file of three lines (a link, a blank line, a link), three windows, and
    a page where the first selector matches a hidden element and the third
    the download button. *)
Definition healthy : script :=
  {| file_present := true;
     file_lines := [ lit "  https://www.mediafire.com/file/a " ++ [10%N];
                     lit "   " ++ [10%N];
                     lit "https://www.mediafire.com/file/b" ++ [10%N] ];
     open_windows := [main_tab; ad_tab_1; ad_tab_2];
     page_text := lit "<html><a class='download_link'>Download (4MB)</a></html>";
     matches := fun sel =>
       if PyStr.eqb sel (lit "a#downloadButton") then Some hidden_link
       else if PyStr.eqb sel (lit "a.download_link") then Some button
       else None;
     shown := fun el => (el =? button)%N;
     fault := no_fault |}.

Definition with_fault (f : forall T : Type, call T -> option exn) (sc : script) : script :=
  {| file_present := file_present sc; file_lines := file_lines sc;
     open_windows := open_windows sc; page_text := page_text sc;
     matches := matches sc; shown := shown sc; fault := f |}.

Definition with_page (text : str) (m : selector -> option element) (sc : script) : script :=
  {| file_present := file_present sc; file_lines := file_lines sc;
     open_windows := open_windows sc; page_text := text;
     matches := m; shown := shown sc; fault := fault sc |}.

Definition with_file (present : bool) (lines : list str) (sc : script) : script :=
  {| file_present := present; file_lines := lines;
     open_windows := open_windows sc; page_text := page_text sc;
     matches := matches sc; shown := shown sc; fault := fault sc |}.

(** The page of a deleted file: the notice is there and no download control. *)
Definition deleted : script :=
  with_page (lit "<html><h1>File Not Found.</h1></html>") (fun _ => None) healthy.

(** A page with no download control at all. *)
Definition bare : script :=
  with_page (lit "<html><body>Please wait</body></html>") (fun _ => None) healthy.

(** The links file is not there. *)
Definition missing_file : script := with_file false [] healthy.

(** A links file of blank lines only. *)
Definition blank_file : script := with_file true [[10%N]; lit "  " ++ [10%N]] healthy.

(** Ctrl-C while the first page is loading. *)
Definition interrupted : script :=
  with_fault (fun T c => match c with Get _ => Some KeyboardInterrupt | _ => None end)
             healthy.

(** The browser cannot be started. *)
Definition no_browser : script :=
  with_fault (fun T c =>
                match c with
                | BuildDriver _ => Some (WebDriverException (lit "unable to obtain driver for chrome"))
                | _ => None
                end) healthy.

(** The browser window has been closed under the script. *)
Definition session_lost : script :=
  with_fault (fun T c =>
                match c with
                | WindowHandles => Some (WebDriverException (lit "invalid session id"))
                | _ => None
                end) healthy.

(** The first popup cannot be switched to. *)
Definition stuck_popup : script :=
  with_fault (fun T c =>
                match c with
                | SwitchToWindow h =>
                    if PyStr.eqb h ad_tab_1
                    then Some (WebDriverException (lit "no such window")) else None
                | _ => None
                end) healthy.

(** The arguments of [python downloader.py links.txt]. *)
Definition links_txt : Namespace :=
  {| links_file := Some (lit "links.txt"); timeout := 30 |}.

Definition file_a : str := lit "https://www.mediafire.com/file/a".

(** The states [process_link] goes through on the page of a deleted file:
    after the load, after the popups are closed, after the page is checked. *)
Definition deleted_loaded : @state (scripted deleted) :=
  fst (@perform (scripted deleted) _ (Get file_a) (start deleted [])).
Definition deleted_reaped : @state (scripted deleted) :=
  fst (@close_popup_tabs (scripted deleted) main_tab deleted_loaded).
Definition deleted_checked : @state (scripted deleted) :=
  fst (@is_page_invalid (scripted deleted) deleted_reaped).

(** The same on the page with no download control, then after the wait and
    after the selector search. *)
Definition bare_loaded : @state (scripted bare) :=
  fst (@perform (scripted bare) _ (Get file_a) (start bare [])).
Definition bare_reaped : @state (scripted bare) :=
  fst (@close_popup_tabs (scripted bare) main_tab bare_loaded).
Definition bare_checked : @state (scripted bare) :=
  fst (@is_page_invalid (scripted bare) bare_reaped).
Definition bare_awaited : @state (scripted bare) :=
  fst (@await_download_button (scripted bare) bare_checked).
Definition bare_searched : @state (scripted bare) :=
  fst (@find_download_button (scripted bare) bare_awaited).

(** ** Specifications

    The vocabulary the properties below are stated in. *)

(** What a page shows, as the selector search sees it: the element a
    selector resolves to (the first one it matches), and which elements are
    displayed. *)
Record page : Type := {
  query : selector -> option element;
  displayed : element -> bool
}.

(** The selector resolves to a displayed element of the page. *)
Definition visible_match (pg : page) (sel : selector) : bool :=
  match query pg sel with
  | Some el => displayed pg el
  | None => false
  end.

(** The element of the first selector, in order, with a visible match. *)
Fixpoint first_visible (pg : page) (selectors : list selector) : option element :=
  match selectors with
  | [] => None
  | sel :: rest =>
      if visible_match pg sel then query pg sel else first_visible pg rest
  end.

(** What [close_popup_tabs] does about one window handle: nothing for the
    handle to keep; for any other a switch to it and, when the switch went
    through, a close, logged when it went through as well. *)
Inductive tab_closing (keep_handle : handle) (h : handle) : list entry -> Prop :=
| tab_kept :
    h = keep_handle -> tab_closing keep_handle h []
| tab_unreachable (e : exn) :
    h <> keep_handle -> is_WebDriverException e = true ->
    tab_closing keep_handle h [Called (SwitchToWindow h) (Raise e)]
| tab_close_failed (e : exn) :
    h <> keep_handle -> is_WebDriverException e = true ->
    tab_closing keep_handle h
      [Called (SwitchToWindow h) (Ok tt); Called CloseWindow (Raise e)]
| tab_closed :
    h <> keep_handle ->
    tab_closing keep_handle h
      [Called (SwitchToWindow h) (Ok tt); Called CloseWindow (Ok tt);
       Logged DEBUG (lit "  [popup] Closed extra tab: %s") [AStr h]].

Section Specifications.
Context {R : Runtime}.

(** Every entry a computation adds to the trace satisfies [P] (and it only
    adds to the trace). *)
Definition emits {A : Type} (P : entry -> Prop) (m : M A) : Prop :=
  forall s, exists new, trace (fst (m s)) = trace s ++ new /\ Forall P new.

(** Every exception a computation raises satisfies [Q]. *)
Definition passes {A : Type} (Q : exn -> Prop) (m : M A) : Prop :=
  forall s e, snd (m s) = Raise e -> Q e.

(** The world answers the selector search from the page [pg], and the
    search leaves the world as it is. *)
Definition shows (w : World) (pg : page) : Prop :=
  (forall sel,
      match query pg sel with
      | Some el => answer (FindElement sel) w = (w, Ok el)
      | None => exists msg,
          answer (FindElement sel) w = (w, Raise (NoSuchElementException msg))
      end)
  /\ (forall el, answer (IsDisplayed el) w = (w, Ok (displayed pg el))).

(** The trace of the shutdown prompt, by how the waiting ends: a line that
    is not the affirmative one is followed by a message and the prompt
    again; the wait ends on the affirmative line, or with the exception the
    prompt raised. *)
Inductive waiting : result unit -> list entry -> Prop :=
| waiting_confirmed (typed : str) :
    affirmative typed = true ->
    waiting (Ok tt) [Prompted PROMPT_SHUTDOWN (Ok typed)]
| waiting_aborted (e : exn) :
    waiting (Raise e) [Prompted PROMPT_SHUTDOWN (Raise e)]
| waiting_again (typed message : str) (r : result unit) (rest : list entry) :
    affirmative typed = false ->
    waiting r rest ->
    waiting r (Prompted PROMPT_SHUTDOWN (Ok typed) :: Printed message :: rest).

(** Where a trace may hold a [driver.quit()]: nowhere, or once, right
    after an affirmative answer to the shutdown prompt. *)
Definition guarded (new : list entry) : Prop :=
  Forall (fun e => is_quit e = false) new
  \/ exists earlier typed q later,
       new = earlier ++ Prompted PROMPT_SHUTDOWN (Ok typed) :: Called QuitDriver q :: later
       /\ affirmative typed = true
       /\ Forall (fun e => is_quit e = false) earlier
       /\ Forall (fun e => is_quit e = false) later.

Definition quit_guarded {A : Type} (m : M A) : Prop :=
  forall s, exists new, trace (fst (m s)) = trace s ++ new /\ guarded new.

End Specifications.

(** ** Further readings of a trace *)

(** The address a [driver.get] call loads. *)
Definition loaded (e : entry) : option str :=
  match e with
  | Called c _ => match c with Get url => Some url | _ => None end
  | _ => None
  end.

(** The addresses loaded along a trace, in order. *)
Definition loads (tr : list entry) : list str :=
  flat_map (fun e => match loaded e with Some url => [url] | None => [] end) tr.

Definition clicks (tr : list entry) : nat := length (filter is_click tr).

(** A click that went through. *)
Definition clicked_ok (e : entry) : bool :=
  match e with
  | Called c r =>
      match c in call T return result T -> bool with
      | Click _ => fun r => match r with Ok _ => true | Raise _ => false end
      | _ => fun _ => false
      end r
  | _ => false
  end.

(** An entry that neither loads a page nor clicks. *)
Definition passive (e : entry) : bool :=
  negb (is_click e) && match loaded e with Some _ => false | None => true end.

(** The page never finishes loading. *)
Definition stalled : script :=
  with_fault (fun T c =>
                match c with
                | Get _ => Some (TimeoutException (lit "timeout: Timed out receiving message"))
                | _ => None
                end) healthy.

Definition stalled_loaded : @state (scripted stalled) :=
  fst (@perform (scripted stalled) _ (Get file_a) (start stalled [])).

(** [a] is [l] with some elements left out. *)
Inductive subsequence {A : Type} : list A -> list A -> Prop :=
| subsequence_nil (l : list A) : subsequence [] l
| subsequence_take (x : A) (a l : list A) :
    subsequence a l -> subsequence (x :: a) (x :: l)
| subsequence_skip (x : A) (a l : list A) :
    subsequence a l -> subsequence a (x :: l).

(** The link of a failure record. *)
Definition failed_link (f : nat * str * str) : nat * str := fst f.

(** A whole run over the two deleted files: ENTER after each failure, then
    [y] at the shutdown prompt. *)
Definition deleted_keys : list key := [Line []; Line []; Line (lit "y")].

Definition deleted_done : @state (scripted deleted) :=
  fst (@main (scripted deleted) links_txt (start deleted deleted_keys)).

(** *** A browser with windows

    A second stand-in, where switching and closing act on the windows: the
    world is the list of open windows and the one that has the focus. *)

Definition has_window (h : handle) (ws : list handle) : bool :=
  existsb (PyStr.eqb h) ws.

Definition without_window (h : handle) (ws : list handle) : list handle :=
  filter (fun x => negb (PyStr.eqb x h)) ws.

Definition windowed_answer (T : Type) (c : call T)
    (w : list handle * option handle) : (list handle * option handle) * result T :=
  match c in call T return (list handle * option handle) * result T with
  | WindowHandles => (w, Ok (fst w))
  | SwitchToWindow h =>
      if has_window h (fst w) then ((fst w, Some h), Ok tt)
      else (w, Raise (WebDriverException (lit "no such window")))
  | CloseWindow =>
      match snd w with
      | Some h => ((without_window h (fst w), None), Ok tt)
      | None => (w, Raise (WebDriverException (lit "no such window")))
      end
  | IsFile _ => (w, Ok true)
  | ReadLines _ => (w, Ok [])
  | BuildDriver _ => (w, Ok tt)
  | CurrentWindowHandle => (w, Ok (hd [] (fst w)))
  | Get _ => (w, Ok tt)
  | PageSource => (w, Ok [])
  | WaitPresence _ _ => (w, Ok tt)
  | FindElement _ => (w, Raise (NoSuchElementException (lit "no such element")))
  | IsDisplayed _ => (w, Ok false)
  | Click _ => (w, Ok tt)
  | Sleep _ => (w, Ok tt)
  | QuitDriver => (w, Ok tt)
  end.

Definition windowed : Runtime :=
  {| World := list handle * option handle;
     answer := windowed_answer;
     lower := ascii_lower;
     exn_str := exn_msg |}.

(** The main tab with two popups open, the focus on the second popup. *)
Definition with_popups : @state windowed :=
  @Build_state windowed ([main_tab; ad_tab_1; ad_tab_2], Some ad_tab_2) [] 30%Z [].

(** *** The life of the browser along a trace *)

Definition launches (tr : list entry) : nat := length (filter is_launch tr).

Definition quits (tr : list entry) : nat := length (filter is_quit tr).

(** A launch that went through. *)
Definition launch_ok (e : entry) : bool :=
  match e with
  | Called c r =>
      match c in call T return result T -> bool with
      | BuildDriver _ => fun r => match r with Ok _ => true | Raise _ => false end
      | _ => fun _ => false
      end r
  | _ => false
  end.

(** A [driver.quit()] that went through. *)
Definition quit_ok (e : entry) : bool :=
  match e with
  | Called c r =>
      match c in call T return result T -> bool with
      | QuitDriver => fun r => match r with Ok _ => true | Raise _ => false end
      | _ => fun _ => false
      end r
  | _ => false
  end.

(** Is there a [driver.quit()] in the trace with no launch that went
    through before it?  [launched]: one went through before the trace. *)
Fixpoint unlaunched_quit (launched : bool) (tr : list entry) : bool :=
  match tr with
  | [] => false
  | e :: rest =>
      if is_quit e then negb launched || unlaunched_quit launched rest
      else unlaunched_quit (launched || launch_ok e) rest
  end.

(** An entry that neither launches nor quits the browser. *)
Definition idle (e : entry) : bool := negb (is_launch e) && negb (is_quit e).

Definition is_ok {A : Type} (r : result A) : bool :=
  match r with Ok _ => true | Raise _ => false end.

(** What a run leaves in the trace about the browser, with its result:
    at most one launch and one quit, no quit before a launch that went
    through, and a quit that went through exactly when the run returned. *)
Definition lifecycle {A : Type} (r : result A) (new : list entry) : Prop :=
  launches new <= 1
  /\ quits new <= 1
  /\ unlaunched_quit false new = false
  /\ existsb quit_ok new = is_ok r.

(** The same for the part of a run that follows the launch. *)
Definition lifecycle_launched {A : Type} (r : result A) (new : list entry) : Prop :=
  launches new = 0
  /\ quits new <= 1
  /\ existsb quit_ok new = is_ok r.

(** An entry that uses the page timeout uses [seconds]: a launch sets it as
    the page-load timeout, and a wait is for the first selector, with it. *)
Definition timeout_ok (seconds : Z) (e : entry) : bool :=
  match e with
  | Called c _ =>
      match c with
      | BuildDriver t => (t =? seconds)%Z
      | WaitPresence t sel => (t =? seconds)%Z && PyStr.eqb sel (lit "a#downloadButton")
      | _ => true
      end
  | _ => true
  end.

Section RunPredicates.
Context {R : Runtime}.

Definition runs_lifecycle {A : Type} (m : M A) : Prop :=
  forall s, exists new,
    trace (fst (m s)) = trace s ++ new /\ lifecycle (snd (m s)) new.

Definition runs_launched {A : Type} (m : M A) : Prop :=
  forall s, exists new,
    trace (fst (m s)) = trace s ++ new /\ lifecycle_launched (snd (m s)) new.

(** Started with [PAGE_TIMEOUT] at [seconds], the computation leaves it
    there and uses no other timeout. *)
Definition honours {A : Type} (seconds : Z) (m : M A) : Prop :=
  forall s, PAGE_TIMEOUT s = seconds ->
    PAGE_TIMEOUT (fst (m s)) = seconds
    /\ exists new, trace (fst (m s)) = trace s ++ new
                   /\ Forall (fun e => timeout_ok seconds e = true) new.

End RunPredicates.

(** ** The summary text *)

(** [str(n)] for a natural number: its decimal digits. *)
Fixpoint uint_codes (u : Decimal.uint) : str :=
  match u with
  | Decimal.Nil => []
  | Decimal.D0 r => 48%N :: uint_codes r
  | Decimal.D1 r => 49%N :: uint_codes r
  | Decimal.D2 r => 50%N :: uint_codes r
  | Decimal.D3 r => 51%N :: uint_codes r
  | Decimal.D4 r => 52%N :: uint_codes r
  | Decimal.D5 r => 53%N :: uint_codes r
  | Decimal.D6 r => 54%N :: uint_codes r
  | Decimal.D7 r => 55%N :: uint_codes r
  | Decimal.D8 r => 56%N :: uint_codes r
  | Decimal.D9 r => 57%N :: uint_codes r
  end.

Definition str_of_nat (n : nat) : str := uint_codes (Nat.to_uint n).

(** [f"{s:>width}"]: padded with spaces on the left, never cut. *)
Definition rjust (width : nat) (s : str) : str :=
  repeat 32%N (width - length s) ++ s.

(** The two lines of the summary for one failure. *)
Definition failure_lines (f : nat * str * str) : list str :=
  [ lit "    Line " ++ rjust 4 (str_of_nat (fst (fst f))) ++ lit ": " ++ snd (fst f);
    lit "             Reason : " ++ snd f ].

(** [summary_lines] of [main], from the figures of the run, the time stamp
    and the path of the links file. *)
Definition summary_lines (timestamp path : str) (sm : summary) : list str :=
  [ [];
    9556%N :: repeat 9552%N 50 ++ [9559%N];
    9553%N :: lit "               DOWNLOAD SESSION SUMMARY           " ++ [9553%N];
    9562%N :: repeat 9552%N 50 ++ [9565%N];
    lit "  Completed at          : " ++ timestamp;
    lit "  Links file            : " ++ path;
    lit "  Total links in file   : " ++ str_of_nat (total_links sm);
    lit "  Links processed       : " ++ str_of_nat (processed sm);
    lit "  Successful clicks     : " ++ str_of_nat (successful sm);
    lit "  Failed / broken links : " ++ str_of_nat (failed_count sm) ]
  ++ (match failures sm with
      | [] => []
      | _ :: _ =>
          [ []; lit "  " ++ [box_line; box_line] ++ lit " Failed Links " ++ [box_line; box_line] ]
          ++ flat_map failure_lines (failures sm)
      end)
  ++ [ repeat box_line 52; [] ].

(** [sep.join(lines)] *)
Fixpoint join (sep : str) (lines : list str) : str :=
  match lines with
  | [] => []
  | [l] => l
  | l :: rest => l ++ sep ++ join sep rest
  end.

Definition summary_text (timestamp path : str) (sm : summary) : str :=
  join [10%N] (summary_lines timestamp path sm).

(** An element that has gone stale: a selenium error that is no
    [NoSuchElementException]. *)
Definition stale : script :=
  with_fault (fun T c =>
                match c with
                | FindElement _ =>
                    Some (WebDriverException (lit "stale element reference"))
                | _ => None
                end) healthy.

Definition stale_queried : @state (scripted stale) :=
  fst (@perform (scripted stale) _ (FindElement (lit "a#downloadButton")) (start stale [])).

(** * Properties *)

(** ** Strings *)

Module PyStrFacts.

Lemma eqb_eq (a b : str) : PyStr.eqb a b = true <-> a = b.
Proof.
  revert b; induction a as [|x a IH]; intros [|y b]; simpl; split;
    try congruence; try reflexivity.
  - intros H. apply andb_true_iff in H as [Hx Hr].
    apply N.eqb_eq in Hx. apply IH in Hr. congruence.
  - intros H. injection H as -> ->. rewrite N.eqb_refl. simpl. now apply IH.
Qed.

Lemma eqb_neq (a b : str) : PyStr.eqb a b = false <-> a <> b.
Proof.
  split.
  - intros H E. apply eqb_eq in E. congruence.
  - intros H. destruct (PyStr.eqb a b) eqn:E; [|reflexivity].
    apply eqb_eq in E. contradiction.
Qed.

Lemma startswith_spec (p s : str) :
  startswith p s = true <-> exists post, s = p ++ post.
Proof.
  revert s; induction p as [|x p IH]; intros s; simpl.
  - split; [intros _; now exists s | reflexivity].
  - destruct s as [|y s]; split.
    + discriminate.
    + intros [post H]. discriminate.
    + intros H. apply andb_true_iff in H as [Hx Hr].
      apply N.eqb_eq in Hx. apply IH in Hr as [post ->]. subst. now exists post.
    + intros [post H]. injection H as -> ->. rewrite N.eqb_refl. simpl.
      apply IH. now exists post.
Qed.

(** The [in] operator finds exactly the substrings. *)
Lemma contains_spec (p s : str) :
  contains p s = true <-> exists pre post, s = pre ++ p ++ post.
Proof.
  induction s as [|y s IH].
  - simpl. rewrite orb_false_r, startswith_spec. split.
    + intros [post H]. now exists [], post.
    + intros [pre [post H]]. destruct pre; [now exists post | discriminate].
  - change (contains p (y :: s))
      with (startswith p (y :: s) || contains p s).
    rewrite orb_true_iff, startswith_spec, IH. split.
    + intros [[post H] | [pre [post H]]].
      * now exists [], post.
      * exists (y :: pre), post. simpl. now rewrite H.
    + intros [[|z pre] [post H]].
      * left. now exists post.
      * right. injection H as -> ->. now exists pre, post.
Qed.

Lemma lstrip_split (s : str) :
  exists pre, s = pre ++ lstrip s /\ blank pre = true.
Proof.
  induction s as [|c s [pre [E B]]]; simpl.
  - now exists [].
  - destruct (isspace c) eqn:Hc.
    + exists (c :: pre). simpl. rewrite Hc, B. split; [now f_equal | reflexivity].
    + now exists [].
Qed.

Lemma lstrip_head (s : str) (c : char) (r : str) :
  lstrip s = c :: r -> isspace c = false.
Proof.
  induction s as [|x s IH]; simpl; [discriminate|].
  destruct (isspace x) eqn:Hx; [exact IH|].
  intros H. injection H as -> _. exact Hx.
Qed.

Lemma lstrip_nil (s : str) : lstrip s = [] <-> blank s = true.
Proof.
  induction s as [|x s IH]; simpl; [tauto|].
  destruct (isspace x); simpl; [exact IH|]. split; discriminate.
Qed.

Lemma blank_app (a b : str) : blank (a ++ b) = blank a && blank b.
Proof. apply forallb_app. Qed.

Lemma blank_rev (a : str) : blank (rev a) = blank a.
Proof.
  induction a as [|x a IH]; simpl; [reflexivity|].
  rewrite blank_app, IH. simpl. rewrite andb_true_r. apply andb_comm.
Qed.

Lemma rstrip_split (s : str) :
  exists post, s = rstrip s ++ post /\ blank post = true.
Proof.
  destruct (lstrip_split (rev s)) as [pre [E B]].
  exists (rev pre). split.
  - unfold rstrip. rewrite <- rev_app_distr, <- E. symmetry. apply rev_involutive.
  - now rewrite blank_rev.
Qed.

Lemma rstrip_last (s r : str) (c : char) :
  rstrip s = r ++ [c] -> isspace c = false.
Proof.
  unfold rstrip. intros H.
  apply (f_equal (@rev char)) in H.
  rewrite rev_involutive, rev_app_distr in H. simpl in H.
  exact (lstrip_head _ _ _ H).
Qed.

Lemma rstrip_nil (s : str) : rstrip s = [] <-> blank s = true.
Proof.
  unfold rstrip. rewrite <- (blank_rev s), <- lstrip_nil. split.
  - intros H. apply (f_equal (@rev char)) in H. now rewrite rev_involutive in H.
  - intros ->. reflexivity.
Qed.

(** [strip] cuts a blank prefix and a blank suffix off the line. *)
Lemma strip_split (s : str) :
  exists pre post,
    s = pre ++ strip s ++ post /\ blank pre = true /\ blank post = true.
Proof.
  destruct (lstrip_split s) as [pre [E1 B1]].
  destruct (rstrip_split (lstrip s)) as [post [E2 B2]].
  exists pre, post. unfold strip. now rewrite <- E2.
Qed.

Lemma strip_nil (s : str) : strip s = [] <-> blank s = true.
Proof.
  unfold strip. rewrite rstrip_nil.
  destruct (lstrip_split s) as [pre [E B]].
  rewrite E at 2. rewrite blank_app, B. simpl. tauto.
Qed.

Lemma truthy_strip (s : str) : truthy (strip s) = negb (blank s).
Proof.
  destruct (blank s) eqn:B; simpl.
  - apply strip_nil in B. now rewrite B.
  - destruct (strip s) eqn:E; [|reflexivity].
    apply strip_nil in E. congruence.
Qed.

Lemma strip_first (s r : str) (c : char) :
  strip s = c :: r -> isspace c = false.
Proof.
  unfold strip. intros H.
  destruct (rstrip_split (lstrip s)) as [post [E _]].
  rewrite H in E. simpl in E. exact (lstrip_head _ _ _ E).
Qed.

Lemma strip_last (s r : str) (c : char) :
  strip s = r ++ [c] -> isspace c = false.
Proof. unfold strip. apply rstrip_last. Qed.

End PyStrFacts.

Import PyStrFacts.

(** ** The link list *)

Section Links.

Let keep (p : nat * str) : bool := truthy (strip (snd p)).
Let link (p : nat * str) : nat * str := (fst p + 1, strip (snd p)).

Lemma in_enumerate (k i : nat) (x : str) (l : list str) :
  In (i, x) (enumerate k l) <-> k <= i /\ nth_error l (i - k) = Some x.
Proof.
  revert k; induction l as [|y l IH]; intros k; simpl.
  - split; [tauto|]. intros [_ H]. destruct (i - k); discriminate.
  - rewrite IH. split.
    + intros [H | [Hle H]].
      * injection H as -> ->. rewrite Nat.sub_diag. auto.
      * split; [lia|]. replace (i - k) with (S (i - S k)) by lia. exact H.
    + intros [Hle H]. destruct (i - k) as [|d] eqn:D.
      * left. injection H as ->. f_equal. lia.
      * right. split; [lia|]. replace (i - S k) with d by lia. exact H.
Qed.

Lemma in_links_from (k n : nat) (url : str) (l : list str) :
  In (n, url) (map link (filter keep (enumerate k l))) <->
  exists line, k + 1 <= n /\ nth_error l (n - 1 - k) = Some line
               /\ blank line = false /\ url = strip line.
Proof.
  rewrite in_map_iff. split.
  - intros [[i line] [E H]]. apply filter_In in H as [H K].
    unfold link in E; simpl in E. injection E as <- <-.
    apply in_enumerate in H as [Hle H].
    unfold keep in K; simpl in K. rewrite truthy_strip in K.
    exists line. repeat split; try lia.
    + now replace (i + 1 - 1 - k) with (i - k) by lia.
    + now destruct (blank line).
  - intros [line (Hle & H & B & ->)].
    exists (n - 1, line). split.
    + unfold link; simpl. f_equal. lia.
    + apply filter_In. split.
      * apply in_enumerate. split; [lia|].
        exact H.
      * unfold keep; simpl. rewrite truthy_strip, B. reflexivity.
Qed.

Lemma links_from_sorted (k : nat) (l : list str) :
  StronglySorted lt (map fst (map link (filter keep (enumerate k l)))).
Proof.
  revert k; induction l as [|y l IH]; intros k; simpl; [constructor|].
  destruct (keep (k, y)); [|apply IH].
  simpl. constructor; [apply IH|].
  apply Forall_forall. intros n Hn.
  apply in_map_iff in Hn as [[m url] [E Hn]]. simpl in E. subst m.
  apply in_links_from in Hn as [_ [Hle _]]. lia.
Qed.

Lemma links_from_length (k : nat) (l : list str) :
  length (map link (filter keep (enumerate k l))) = non_blank_lines l.
Proof.
  unfold non_blank_lines. rewrite length_map.
  revert k; induction l as [|y l IH]; intros k; simpl; [reflexivity|].
  unfold keep at 1; simpl. rewrite truthy_strip.
  destruct (negb (blank y)); simpl; now rewrite IH.
Qed.

End Links.

Lemma in_links_of (n : nat) (url : str) (raw_lines : list str) :
  In (n, url) (links_of raw_lines) <->
  exists line, 1 <= n /\ nth_error raw_lines (n - 1) = Some line
               /\ blank line = false /\ url = strip line.
Proof.
  unfold links_of. rewrite in_links_from. simpl.
  now replace (n - 1 - 0) with (n - 1) by lia.
Qed.

Lemma links_of_length (raw_lines : list str) :
  length (links_of raw_lines) = non_blank_lines raw_lines.
Proof. apply links_from_length. Qed.

(** C7.  The line number of a link is the 1-based position of its line in
    the file, blank lines counted: [(n, url)] is a link exactly when line [n]
    of the file exists, is not blank and strips to [url].  The links come in
    file order, one per non-blank line, so a blank line gives none. *)
Theorem line_numbers_are_file_positions (raw_lines : list str) :
  (forall n url,
      In (n, url) (links_of raw_lines) <->
      exists line, 1 <= n /\ nth_error raw_lines (n - 1) = Some line
                   /\ blank line = false /\ url = strip line)
  /\ StronglySorted lt (map fst (links_of raw_lines))
  /\ length (links_of raw_lines) = non_blank_lines raw_lines.
Proof.
  split; [|split].
  - intros n url. apply in_links_of.
  - apply links_from_sorted.
  - apply links_of_length.
Qed.

(** ** Computations and their traces *)

Section Runs.
Context {R : Runtime}.

Lemma bind_ok {A B : Type} (m : M A) (k : A -> M B) (s s1 : state) (a : A) :
  m s = (s1, Ok a) -> bind m k s = k a s1.
Proof. unfold bind. now intros ->. Qed.

Lemma bind_raise {A B : Type} (m : M A) (k : A -> M B) (s s1 : state) (e : exn) :
  m s = (s1, Raise e) -> bind m k s = (s1, Raise e).
Proof. unfold bind. now intros ->. Qed.

Lemma emits_weaken {A : Type} (P Q : entry -> Prop) (m : M A) :
  (forall e, P e -> Q e) -> emits P m -> emits Q m.
Proof.
  intros PQ H s. destruct (H s) as [new [E F]].
  exists new. split; [exact E|]. eapply Forall_impl; eauto.
Qed.

Lemma emits_ret {A : Type} (P : entry -> Prop) (a : A) : emits P (ret a).
Proof. intros s. exists []. simpl. now rewrite app_nil_r. Qed.

Lemma emits_raise {A : Type} (P : entry -> Prop) (e : exn) : emits P (@raise _ A e).
Proof. intros s. exists []. simpl. now rewrite app_nil_r. Qed.

Lemma emits_get_PAGE_TIMEOUT (P : entry -> Prop) : emits P get_PAGE_TIMEOUT.
Proof. intros s. exists []. simpl. now rewrite app_nil_r. Qed.

Lemma emits_set_PAGE_TIMEOUT (P : entry -> Prop) (t : Z) : emits P (set_PAGE_TIMEOUT t).
Proof. intros s. exists []. simpl. now rewrite app_nil_r. Qed.

Lemma emits_perform {T : Type} (P : entry -> Prop) (c : call T) :
  (forall r, P (Called c r)) -> emits P (perform c).
Proof.
  intros H s. unfold perform. destruct (answer c (world s)) as [w r].
  exists [Called c r]. simpl. auto.
Qed.

Lemma emits_print (P : entry -> Prop) (text : str) :
  P (Printed text) -> emits P (print text).
Proof. intros H s. exists [Printed text]. simpl. auto. Qed.

Lemma emits_log (P : entry -> Prop) (lvl : level) (fmt : str) (args : list arg) :
  P (Logged lvl fmt args) -> emits P (log lvl fmt args).
Proof. intros H s. exists [Logged lvl fmt args]. simpl. auto. Qed.

Lemma emits_input (P : entry -> Prop) (prompt : str) :
  (forall typed, P (Prompted prompt typed)) -> emits P (input prompt).
Proof. intros H s. eexists [_]. simpl. split; [reflexivity|]. auto. Qed.

Lemma emits_bind {A B : Type} (P : entry -> Prop) (m : M A) (k : A -> M B) :
  emits P m -> (forall a, emits P (k a)) -> emits P (bind m k).
Proof.
  intros Hm Hk s. unfold bind. destruct (Hm s) as [n1 [E1 F1]].
  destruct (m s) as [s1 [a|e]]; simpl in E1.
  - destruct (Hk a s1) as [n2 [E2 F2]]. exists (n1 ++ n2).
    rewrite E2, E1, app_assoc. split; [reflexivity|]. now apply Forall_app.
  - now exists n1.
Qed.

Lemma emits_try_except {A : Type} (P : entry -> Prop) (m : M A)
    (handler : exn -> option (M A)) :
  emits P m -> (forall e k, handler e = Some k -> emits P k) ->
  emits P (try_except m handler).
Proof.
  intros Hm Hh s. unfold try_except. destruct (Hm s) as [n1 [E1 F1]].
  destruct (m s) as [s1 [a|e]]; simpl in E1.
  - now exists n1.
  - destruct (handler e) as [k|] eqn:Hk.
    + destruct (Hh e k Hk s1) as [n2 [E2 F2]]. exists (n1 ++ n2).
      rewrite E2, E1, app_assoc. split; [reflexivity|]. now apply Forall_app.
    + now exists n1.
Qed.

(** A run from an equation. *)
Lemma emits_run {A : Type} (P : entry -> Prop) (m : M A) {s s' : state} {r : result A} :
  emits P m -> m s = (s', r) -> exists new, trace s' = trace s ++ new /\ Forall P new.
Proof. intros H E. specialize (H s). now rewrite E in H. Qed.

End Runs.

(** Splits an [emits] goal along the structure of the computation. *)
Ltac emits_step :=
  match goal with
  | |- emits _ (ret _) => apply emits_ret
  | |- emits _ (raise _) => apply emits_raise
  | |- emits _ get_PAGE_TIMEOUT => apply emits_get_PAGE_TIMEOUT
  | |- emits _ (set_PAGE_TIMEOUT _) => apply emits_set_PAGE_TIMEOUT
  | |- emits _ (perform _) => apply emits_perform; intros
  | |- emits _ (print _) => apply emits_print
  | |- emits _ (log _ _ _) => apply emits_log
  | |- emits _ (input _) => apply emits_input; intros
  | |- emits _ (bind _ _) => apply emits_bind; [|intros]
  | |- emits _ (pass_WebDriverException _) => unfold pass_WebDriverException
  | |- emits _ (try_except _ _) =>
      let e := fresh "e" in
      let k := fresh "k" in
      let H := fresh "H" in
      apply emits_try_except;
      [|intros e k H;
        repeat match type of H with
               | (if ?b then _ else _) = Some _ => destruct b
               end;
        inversion H; subst; clear H]
  | |- emits _ (if ?b then _ else _) => destruct b
  | |- emits _ (match ?x with Some _ => _ | None => _ end) => destruct x
  end.

Section Helpers.
Context {R : Runtime}.

Lemma close_each_emits (P : entry -> Prop) (keep_handle : handle) (handles : list handle) :
  (forall e, window_entry e = true -> P e) ->
  emits P (close_each keep_handle handles).
Proof.
  intros HP. induction handles as [|h rest IH]; simpl.
  - apply emits_ret.
  - repeat emits_step; try exact IH; apply HP; reflexivity.
Qed.

Lemma close_popup_tabs_emits (P : entry -> Prop) (keep_handle : handle) :
  (forall e, window_entry e = true -> P e) ->
  emits P (close_popup_tabs keep_handle).
Proof.
  intros HP. unfold close_popup_tabs.
  repeat emits_step; try (apply close_each_emits; exact HP); apply HP; reflexivity.
Qed.

End Helpers.

(** ** Page helpers *)

Section PageHelpers.
Context {R : Runtime}.

Lemma any_phrase_stable (phrases : list str) (src : str) (s : state) :
  answer PageSource (world s) = (world s, Ok src) ->
  exists s', any_phrase phrases s
             = (s', Ok (existsb (fun p => contains p (lower src)) phrases))
             /\ world s' = world s.
Proof.
  revert s; induction phrases as [|p rest IH]; intros s H; simpl.
  - now exists s.
  - unfold bind, perform. rewrite H.
    destruct (contains p (lower src)); simpl.
    + eexists. split; reflexivity.
    + match goal with |- context [any_phrase rest ?x] =>
        destruct (IH x H) as [s' [E W]] end.
      exists s'. split; [exact E | exact W].
Qed.

(** C6.  On a page whose source reads [src], [is_page_invalid] answers
    [True] exactly when one of the five phrases is a substring of the
    lower-cased source. *)
Theorem is_page_invalid_iff_phrase (src : str) (s : state) :
  answer PageSource (world s) = (world s, Ok src) ->
  exists s' b,
    is_page_invalid s = (s', Ok b)
    /\ (b = true <->
        exists p,
          In p [ lit "invalid or deleted"; lit "file not found";
                 lit "this file has been deleted"; lit "unavailable";
                 lit "error occurred" ]
          /\ exists pre post, lower src = pre ++ p ++ post).
Proof.
  intros H. destruct (any_phrase_stable INVALID_PAGE_TEXTS src s H) as [s' [E _]].
  exists s', (existsb (fun p => contains p (lower src)) INVALID_PAGE_TEXTS).
  split; [exact E|].
  rewrite existsb_exists. split.
  - intros [p [Hin Hc]]. exists p. split; [exact Hin|]. now apply contains_spec.
  - intros [p [Hin Hc]]. exists p. split; [exact Hin|]. now apply contains_spec.
Qed.

Lemma first_visible_some (pg : page) (selectors : list selector) (b : element) :
  first_visible pg selectors = Some b <->
  exists pre sel post,
    selectors = pre ++ sel :: post
    /\ Forall (fun x => visible_match pg x = false) pre
    /\ query pg sel = Some b /\ displayed pg b = true.
Proof.
  induction selectors as [|x rest IH]; simpl.
  - split; [discriminate|]. intros (pre & sel & post & E & _). destruct pre; discriminate.
  - destruct (visible_match pg x) eqn:V.
    + split.
      * intros Q. exists [], x, rest. repeat split; auto.
        unfold visible_match in V. now rewrite Q in V.
      * intros (pre & sel & post & E & F & Q & D). destruct pre as [|y pre].
        -- injection E as -> ->. exact Q.
        -- injection E as -> ->. inversion F; subst. congruence.
    + rewrite IH. split.
      * intros (pre & sel & post & -> & F & Q & D).
        exists (x :: pre), sel, post. repeat split; auto.
      * intros (pre & sel & post & E & F & Q & D). destruct pre as [|y pre].
        -- injection E as -> ->. unfold visible_match in V. rewrite Q in V. congruence.
        -- injection E as -> ->. inversion F; subst. now exists pre, sel, post.
Qed.

Lemma first_visible_none (pg : page) (selectors : list selector) :
  first_visible pg selectors = None <->
  Forall (fun x => visible_match pg x = false) selectors.
Proof.
  induction selectors as [|x rest IH]; simpl.
  - split; auto.
  - destruct (visible_match pg x) eqn:V.
    + split.
      * intros Q. unfold visible_match in V. now rewrite Q in V.
      * intros F. inversion F; subst. congruence.
    + rewrite IH. split.
      * intros F. now constructor.
      * intros F. now inversion F.
Qed.

Lemma find_among_shows (pg : page) (selectors : list selector) (s : state) :
  shows (world s) pg ->
  exists s', find_among selectors s = (s', Ok (first_visible pg selectors))
             /\ world s' = world s.
Proof.
  revert s; induction selectors as [|sel rest IH]; intros s H; simpl.
  - now exists s.
  - destruct H as [HQ HD]. unfold bind at 1. unfold try_selector, try_except.
    unfold bind at 1. unfold perform at 1. unfold visible_match.
    pose proof HQ as HQ'. specialize (HQ sel). destruct (query pg sel) as [el|].
    + rewrite HQ. unfold bind, perform. cbn [world]. rewrite HD.
      destruct (displayed pg el); cbn.
      * eexists. split; reflexivity.
      * match goal with |- context [find_among rest ?x] =>
          destruct (IH x (conj HQ' HD)) as [s' [E W]] end.
        exists s'. split; [exact E | exact W].
    + destruct HQ as [msg HQ]. rewrite HQ. cbn.
      match goal with |- context [find_among rest ?x] =>
        destruct (IH x (conj HQ' HD)) as [s' [E W]] end.
      exists s'. split; [exact E | exact W].
Qed.

(** C5.  On a page [pg], [find_download_button] goes through the five
    selectors in order and returns the element of the first one that
    resolves to a displayed element; it returns [None] exactly when no
    selector does. *)
Theorem find_download_button_first_visible (pg : page) (s : state) :
  shows (world s) pg ->
  exists s' found,
    find_download_button s = (s', Ok found)
    /\ (forall b,
           found = Some b <->
           exists pre sel post,
             DOWNLOAD_BUTTON_SELECTORS = pre ++ sel :: post
             /\ Forall (fun x => visible_match pg x = false) pre
             /\ query pg sel = Some b /\ displayed pg b = true)
    /\ (found = None <->
        Forall (fun x => visible_match pg x = false) DOWNLOAD_BUTTON_SELECTORS).
Proof.
  intros H.
  destruct (find_among_shows pg DOWNLOAD_BUTTON_SELECTORS s H) as [s' [E _]].
  exists s', (first_visible pg DOWNLOAD_BUTTON_SELECTORS).
  split; [exact E|]. split.
  - intros b. apply first_visible_some.
  - apply first_visible_none.
Qed.

End PageHelpers.

(** ** The single-link routine *)

Section SingleLink.
Context {R : Runtime}.

Lemma try_except_ok {A : Type} (m : M A) (handler : exn -> option (M A))
    (s s1 : state) (a : A) :
  m s = (s1, Ok a) -> try_except m handler s = (s1, Ok a).
Proof. unfold try_except. now intros ->. Qed.

Lemma any_phrase_emits (P : entry -> Prop) (phrases : list str) :
  (forall r, P (Called PageSource r)) -> emits P (any_phrase phrases).
Proof.
  intros HP. induction phrases as [|p rest IH]; simpl.
  - apply emits_ret.
  - repeat emits_step; auto.
Qed.

Lemma find_among_emits (P : entry -> Prop) (selectors : list selector) :
  (forall sel r, P (Called (FindElement sel) r)) ->
  (forall el r, P (Called (IsDisplayed el) r)) ->
  emits P (find_among selectors).
Proof.
  intros HF HD. induction selectors as [|sel rest IH]; simpl.
  - apply emits_ret.
  - unfold try_selector. repeat emits_step; auto.
Qed.

Lemma await_download_button_emits (P : entry -> Prop) :
  (forall seconds sel r, P (Called (WaitPresence seconds sel) r)) ->
  emits P await_download_button.
Proof. intros HP. unfold await_download_button. repeat emits_step; auto. Qed.

Lemma window_entry_is_link_entry (url : str) (e : entry) :
  window_entry e = true -> link_entry url e = true.
Proof.
  destruct e as [T c r|lvl f a|t|p t]; simpl; try discriminate.
  - destruct c; simpl; auto; discriminate.
  - destruct lvl; auto.
Qed.

Lemma process_link_emits (url : str) (main_handle : handle) :
  emits (fun e => link_entry url e = true) (process_link url main_handle).
Proof.
  unfold process_link, is_page_invalid, find_download_button.
  repeat first
    [ apply close_popup_tabs_emits; apply window_entry_is_link_entry
    | apply any_phrase_emits; intros; reflexivity
    | apply find_among_emits; intros; reflexivity
    | apply await_download_button_emits; intros; reflexivity
    | emits_step ];
    try reflexivity.
  simpl. apply eqb_eq. reflexivity.
Qed.

(** C2.  When the page has loaded, the popups have been closed and the page
    is then found invalid, [process_link] returns the failure "MediaFire
    reports file as invalid or deleted" in the very state the check left:
    nothing more is done for the link, and the trace of the call has no wait
    for the download control, no selector search and no click. *)
Theorem invalid_page_stops_processing (url : str) (main_handle : handle)
    (s s1 s2 s3 : state) :
  perform (Get url) s = (s1, Ok tt) ->
  close_popup_tabs main_handle s1 = (s2, Ok tt) ->
  is_page_invalid s2 = (s3, Ok true) ->
  process_link url main_handle s = (s3, Ok (false, MSG_INVALID))
  /\ exists new,
       trace s3 = trace s ++ new
       /\ Forall (fun e => control_search e = false) new.
Proof.
  intros H1 H2 H3. split.
  - unfold process_link.
    erewrite bind_ok
      by (apply try_except_ok; erewrite bind_ok by eassumption; reflexivity).
    cbv beta iota.
    erewrite bind_ok by eassumption.
    erewrite bind_ok by eassumption.
    reflexivity.
  - assert (W : forall e, window_entry e = true -> control_search e = false).
    { intros [T c r|lvl f a|t|p t]; try reflexivity. destruct c; easy. }
    destruct (emits_run (fun e => control_search e = false) (perform (Get url))
                ltac:(emits_step; reflexivity) H1) as [n1 [E1 F1]].
    destruct (emits_run _ _ (close_popup_tabs_emits _ main_handle W) H2)
      as [n2 [E2 F2]].
    destruct (emits_run (fun e => control_search e = false) is_page_invalid
                ltac:(apply any_phrase_emits; reflexivity) H3) as [n3 [E3 F3]].
    exists (n1 ++ n2 ++ n3). split.
    + rewrite E3, E2, E1. now rewrite <- !app_assoc.
    + repeat (apply Forall_app; split); assumption.
Qed.

(** C3.  When the page has loaded, is not flagged invalid, and the selector
    search then finds no displayed element, [process_link] returns the
    failure "Download button not found on page", and the trace of the call
    has no click. *)
Theorem missing_button_is_not_clicked (url : str) (main_handle : handle)
    (s s1 s2 s3 s4 s5 : state) :
  perform (Get url) s = (s1, Ok tt) ->
  close_popup_tabs main_handle s1 = (s2, Ok tt) ->
  is_page_invalid s2 = (s3, Ok false) ->
  await_download_button s3 = (s4, Ok tt) ->
  find_download_button s4 = (s5, Ok None) ->
  process_link url main_handle s = (s5, Ok (false, MSG_NOT_FOUND))
  /\ exists new,
       trace s5 = trace s ++ new
       /\ Forall (fun e => is_click e = false) new.
Proof.
  intros H1 H2 H3 H4 H5.
  assert (E : process_link url main_handle s = (s5, Ok (false, MSG_NOT_FOUND))).
  { unfold process_link.
    erewrite bind_ok
      by (apply try_except_ok; erewrite bind_ok by eassumption; reflexivity).
    cbv beta iota.
    erewrite bind_ok by eassumption.
    erewrite bind_ok by eassumption.
    cbv beta iota.
    erewrite bind_ok by eassumption.
    erewrite bind_ok by eassumption.
    reflexivity. }
  split; [exact E|].
  assert (W : forall e, window_entry e = true -> is_click e = false).
  { intros [T c r|lvl f a|t|p t]; try reflexivity. destruct c; easy. }
  destruct (emits_run (fun e => is_click e = false) (perform (Get url))
              ltac:(emits_step; reflexivity) H1) as [n1 [E1 F1]].
  destruct (emits_run _ _ (close_popup_tabs_emits _ main_handle W) H2)
    as [n2 [E2 F2]].
  destruct (emits_run (fun e => is_click e = false) is_page_invalid
              ltac:(apply any_phrase_emits; reflexivity) H3) as [n3 [E3 F3]].
  destruct (emits_run (fun e => is_click e = false) await_download_button
              ltac:(apply await_download_button_emits; reflexivity) H4)
    as [n4 [E4 F4]].
  destruct (emits_run (fun e => is_click e = false) find_download_button
              ltac:(apply find_among_emits; reflexivity) H5) as [n5 [E5 F5]].
  exists (n1 ++ n2 ++ n3 ++ n4 ++ n5). split.
  - rewrite E5, E4, E3, E2, E1. now rewrite <- !app_assoc.
  - repeat (apply Forall_app; split); assumption.
Qed.

End SingleLink.

(** ** The popup helper *)

Section Popups.
Context {R : Runtime}.
Variable keep_handle : handle.

(** The driver fails a switch or a close with a selenium error only. *)
Hypothesis switch_errors :
  forall h w e, snd (answer (SwitchToWindow h) w) = Raise e ->
                is_WebDriverException e = true.
Hypothesis close_errors :
  forall w e, snd (answer CloseWindow w) = Raise e ->
              is_WebDriverException e = true.

Lemma close_each_shape (handles : list handle) (s : state) :
  exists s' segments,
    close_each keep_handle handles s = (s', Ok tt)
    /\ trace s' = trace s ++ concat segments
    /\ Forall2 (tab_closing keep_handle) handles segments.
Proof.
  revert s; induction handles as [|h rest IH]; intros s.
  - exists s, []. simpl. rewrite app_nil_r. auto.
  - simpl. destruct (PyStr.eqb h keep_handle) eqn:K.
    + apply eqb_eq in K. destruct (IH s) as (s' & segs & E & T & F).
      exists s', ([] :: segs). unfold bind at 1. simpl. repeat split; auto.
      constructor; [now constructor | exact F].
    + apply eqb_neq in K.
      unfold bind at 1. unfold pass_WebDriverException, try_except.
      unfold bind at 1. unfold perform at 1.
      destruct (answer (SwitchToWindow h) (world s)) as [w1 r1] eqn:A1.
      destruct r1 as [[]|e1].
      * unfold bind at 1. unfold perform at 1. cbn [world record].
        destruct (answer CloseWindow w1) as [w2 r2] eqn:A2.
        destruct r2 as [[]|e2].
        -- unfold log. cbn iota beta.
           match goal with |- context [close_each keep_handle rest ?x] =>
             destruct (IH x) as (s' & segs & E & T & F) end.
           exists s', ([Called (SwitchToWindow h) (Ok tt); Called CloseWindow (Ok tt);
                        Logged DEBUG (lit "  [popup] Closed extra tab: %s") [AStr h]] :: segs). split; [exact E|]. split.
           ++ rewrite T. cbn [record trace]. rewrite <- !app_assoc. cbn [concat app].
              reflexivity.
           ++ constructor; [now apply tab_closed | exact F].
        -- assert (W : is_WebDriverException e2 = true).
           { apply (close_errors w1). now rewrite A2. }
           rewrite W. cbn [ret].
           match goal with |- context [close_each keep_handle rest ?x] =>
             destruct (IH x) as (s' & segs & E & T & F) end.
           exists s', ([Called (SwitchToWindow h) (Ok tt); Called CloseWindow (Raise e2)] :: segs). split; [exact E|]. split.
           ++ rewrite T. cbn [record trace]. rewrite <- !app_assoc. cbn [concat app].
              reflexivity.
           ++ constructor; [now apply tab_close_failed | exact F].
      * assert (W : is_WebDriverException e1 = true).
        { apply (switch_errors h (world s)). now rewrite A1. }
        rewrite W. cbn [ret].
        match goal with |- context [close_each keep_handle rest ?x] =>
          destruct (IH x) as (s' & segs & E & T & F) end.
        exists s', ([Called (SwitchToWindow h) (Raise e1)] :: segs). split; [exact E|]. split.
        ++ rewrite T. cbn [record trace]. rewrite <- !app_assoc. cbn [concat app].
           reflexivity.
        ++ constructor; [now apply tab_unreachable | exact F].
Qed.


Lemma closed_under_segments (handles : list handle) (segments : list (list entry))
    (tail : list entry) (focus : option handle) :
  Forall2 (tab_closing keep_handle) handles segments ->
  (forall f, closed_under f tail = []) ->
  Forall (fun closed => exists h, closed = Some h /\ h <> keep_handle /\ In h handles)
         (closed_under focus (concat segments ++ tail)).
Proof.
  intros F Htail. revert focus.
  induction F as [|h seg handles segments Hseg F IH]; intros focus.
  - simpl. rewrite Htail. constructor.
  - assert (Later : forall f,
               Forall (fun closed => exists h0, closed = Some h0 /\ h0 <> keep_handle
                                                /\ In h0 (h :: handles))
                      (closed_under f (concat segments ++ tail))).
    { intros f. eapply Forall_impl; [|apply (IH f)].
      intros closed (h0 & E & K & I). exists h0. simpl. auto. }
    destruct Hseg as [K|e K W|e K W|K]; cbn.
    + apply Later.
    + apply Later.
    + constructor; [|apply Later]. exists h. simpl. auto.
    + constructor; [|apply Later]. exists h. simpl. auto.
Qed.

(** C9.  When the window handles can be listed, [close_popup_tabs] returns
    without raising.  Its trace is the listing, then for every handle other
    than [keep_handle], in order, a switch to it followed, when the switch
    went through, by a close (a failure of either ends the work on that
    handle only), then the switch back to [keep_handle], whose failure is
    passed over as well.  Every close is issued with the focus on a listed
    handle other than [keep_handle]. *)
Theorem close_popup_tabs_reaps (s : state) (w1 : World) (handles : list handle) :
  answer WindowHandles (world s) = (w1, Ok handles) ->
  exists s' segments back,
    close_popup_tabs keep_handle s = (s', Ok tt)
    /\ trace s'
       = trace s ++ Called WindowHandles (Ok handles)
                    :: concat segments ++ [Called (SwitchToWindow keep_handle) back]
    /\ Forall2 (tab_closing keep_handle) handles segments
    /\ Forall (fun closed => exists h, closed = Some h /\ h <> keep_handle /\ In h handles)
         (closed_under None
            (concat segments ++ [Called (SwitchToWindow keep_handle) back])).
Proof.
  intros A. unfold close_popup_tabs.
  unfold bind at 1. unfold perform at 1. rewrite A.
  match goal with |- context [bind (close_each keep_handle handles) _ ?x] =>
    destruct (close_each_shape handles x) as (s1 & segs & E & T & F) end.
  unfold bind at 1. rewrite E.
  unfold pass_WebDriverException, try_except, perform.
  destruct (answer (SwitchToWindow keep_handle) (world s1)) as [w2 back] eqn:A2.
  assert (Tail : forall f, closed_under f [Called (SwitchToWindow keep_handle) back] = []).
  { intros f. destruct back; reflexivity. }
  destruct back as [[]|e].
  - eexists _, segs, (Ok tt). split; [reflexivity|]. split; [|split].
    + cbn [record trace]. rewrite T. cbn [record trace].
      rewrite <- !app_assoc. reflexivity.
    + exact F.
    + now apply closed_under_segments.
  - assert (W : is_WebDriverException e = true).
    { apply (switch_errors keep_handle (world s1)). now rewrite A2. }
    rewrite W. eexists _, segs, (Raise e). split; [reflexivity|]. split; [|split].
    + cbn [ret record trace]. rewrite T. cbn [record trace].
      rewrite <- !app_assoc. reflexivity.
    + exact F.
    + now apply closed_under_segments.
Qed.

End Popups.

(** ** The per-link loop *)

Section Loop.
Context {R : Runtime}.

Lemma acknowledgments_app (a b : list entry) :
  acknowledgments (a ++ b) = acknowledgments a + acknowledgments b.
Proof. unfold acknowledgments. now rewrite filter_app, length_app. Qed.

Lemma acknowledgments_none (tr : list entry) :
  Forall (fun e => is_acknowledgment e = false) tr -> acknowledgments tr = 0.
Proof.
  unfold acknowledgments. induction 1 as [|e tr He _ IH]; simpl; [reflexivity|].
  now rewrite He.
Qed.

Lemma link_entry_in_loop (url : str) (urls : list str) (e : entry) :
  link_entry url e = true -> In url urls -> loop_entry urls e = true.
Proof.
  intros L I. destruct e as [T c r|lvl f a|t|p t]; try reflexivity.
  unfold loop_entry. apply existsb_exists. now exists url.
Qed.

Lemma loop_entry_incl (urls urls' : list str) (e : entry) :
  incl urls urls' -> loop_entry urls e = true -> loop_entry urls' e = true.
Proof.
  intros I. destruct e as [T c r|lvl f a|t|p t]; try reflexivity.
  unfold loop_entry. rewrite !existsb_exists. intros [u [Hu L]]. exists u. auto.
Qed.

Lemma link_entry_not_acknowledgment (url : str) (e : entry) :
  link_entry url e = true -> is_acknowledgment e = false.
Proof. destruct e; simpl; congruence. Qed.

Lemma record_outcome_counts (line_no : nat) (url : str) (outcome : bool * str)
    (c : counters) :
  outcomes (record_outcome line_no url outcome c) = outcomes c + 1.
Proof.
  unfold outcomes, record_outcome. destruct (fst outcome); simpl.
  - lia.
  - rewrite length_app. simpl. lia.
Qed.

(** The prompt after a link is shown once, whatever the outcome and
    whatever is typed. *)
Lemma acknowledge_trace (outcome : bool * str) (urls : list str) (s : state) :
  exists new,
    trace (fst (acknowledge outcome s)) = trace s ++ new
    /\ acknowledgments new = 1
    /\ Forall (fun e => loop_entry urls e = true) new.
Proof.
  unfold acknowledge, bind, print, log, input.
  destruct (fst outcome); cbn [record stdin trace world PAGE_TIMEOUT];
    destruct (stdin s) as [|[l|] rest]; cbn [fst record trace];
    rewrite <- !app_assoc; cbn [app];
    eexists; (split; [reflexivity|]); (split; [reflexivity|]);
    repeat constructor.
Qed.


Lemma for_links_counts (main_handle : handle) (total : nat) (links : list (nat * str)) :
  forall (idx : nat) (c : counters) (s : state),
  exists new,
    trace (fst (for_links main_handle total idx links c s)) = trace s ++ new
    /\ outcomes (fst (snd (for_links main_handle total idx links c s)))
       = outcomes c + acknowledgments new
    /\ acknowledgments new <= length links
    /\ (snd (snd (for_links main_handle total idx links c s)) = Ok tt ->
        acknowledgments new = length links)
    /\ Forall (fun e => loop_entry (map snd links) e = true) new.
Proof.
  induction links as [|[line_no url] rest IH]; intros idx c s.
  - exists []. cbn. rewrite app_nil_r. repeat split; auto; lia.
  - cbn [for_links map snd length].
    set (m := bind _ _).
    assert (Hm : emits (fun e => is_acknowledgment e = false
                                 /\ loop_entry (url :: map snd rest) e = true) m).
    { subst m. repeat emits_step; try (split; reflexivity).
      eapply emits_weaken; [|apply process_link_emits].
      intros e L. split.
      - now apply link_entry_not_acknowledgment with url.
      - apply link_entry_in_loop with url; [exact L | now left]. }
    destruct (Hm s) as (n1 & E1 & F1). clearbody m.
    assert (A1 : acknowledgments n1 = 0).
    { apply acknowledgments_none. eapply Forall_impl; [|exact F1]. now intros e [H _]. }
    assert (L1 : Forall (fun e => loop_entry (url :: map snd rest) e = true) n1).
    { eapply Forall_impl; [|exact F1]. now intros e [_ H]. }
    destruct (m s) as [s1 [outcome|e]]; cbn [fst snd] in *.
    + destruct (acknowledge_trace outcome (url :: map snd rest) s1) as (n2 & E2 & A2 & F2).
      destruct (acknowledge outcome s1) as [s2 [[]|e2]]; cbn [fst snd] in *.
      * destruct (IH (S idx) (record_outcome line_no url outcome c) s2)
          as (n3 & E3 & O3 & B3 & K3 & F3).
        exists (n1 ++ n2 ++ n3). rewrite E3, E2, E1, O3, record_outcome_counts.
        rewrite !acknowledgments_app, A1, A2, <- !app_assoc.
        repeat split; try lia.
        -- intros H. specialize (K3 H). lia.
        -- repeat (apply Forall_app; split); auto.
           eapply Forall_impl; [|exact F3].
           intros e. apply loop_entry_incl. now apply incl_tl.
      * exists (n1 ++ n2). rewrite E2, E1, record_outcome_counts.
        rewrite !acknowledgments_app, A1, A2, <- !app_assoc.
        repeat split; try lia; try discriminate.
        now apply Forall_app.
    + exists n1. rewrite E1, A1. repeat split; try lia; try discriminate. exact L1.
Qed.

(** C1 (as amended).  The loop counts one outcome for every link whose
    [process_link] call returned, that is, for every prompt it showed.
    That number is at most the number of non-blank lines of the file, and
    equal to it when the loop runs to its end; a loop an exception cuts
    short (Ctrl-C among them) stops with the outcomes counted so far. *)
Theorem outcomes_counted (main_handle : handle) (total idx : nat)
    (raw_lines : list str) (s : state) :
  exists new,
    trace (fst (for_links main_handle total idx (links_of raw_lines)
                  {| success_count := 0; failed_links := [] |} s))
    = trace s ++ new
    /\ outcomes (fst (snd (for_links main_handle total idx (links_of raw_lines)
                             {| success_count := 0; failed_links := [] |} s)))
       = acknowledgments new
    /\ acknowledgments new <= non_blank_lines raw_lines
    /\ (snd (snd (for_links main_handle total idx (links_of raw_lines)
                    {| success_count := 0; failed_links := [] |} s)) = Ok tt ->
        acknowledgments new = non_blank_lines raw_lines).
Proof.
  destruct (for_links_counts main_handle total (links_of raw_lines) idx
              {| success_count := 0; failed_links := [] |} s)
    as (new & E & O & B & K & _).
  rewrite links_of_length in B, K.
  exists new. repeat split; auto.
Qed.

End Loop.

(** ** The shutdown prompt *)

Section Shutdown.
Context {R : Runtime}.

Lemma input_run (prompt : str) (s s1 : state) (r : result str) :
  input prompt s = (s1, r) ->
  trace s1 = trace s ++ [Prompted prompt r]
  /\ (forall typed, r = Ok typed -> length (stdin s) = S (length (stdin s1))).
Proof.
  unfold input. intros H. injection H as <- <-. split; [reflexivity|].
  intros typed. destruct (stdin s) as [|[l|] rest]; try discriminate. reflexivity.
Qed.

Lemma shutdown_loop_waits (fuel : nat) :
  forall s, length (stdin s) < fuel ->
  exists new,
    trace (fst (shutdown_loop fuel s)) = trace s ++ new
    /\ waiting (snd (shutdown_loop fuel s)) new.
Proof.
  induction fuel as [|n IH]; intros s Hfuel; [lia|].
  cbn [shutdown_loop].
  destruct (input PROMPT_SHUTDOWN s) as [s1 [typed|e]] eqn:I;
    destruct (input_run _ _ _ _ I) as [T L].
  - erewrite bind_ok by exact I.
    destruct (PyStr.eqb (lower (strip typed)) (lit "y")) eqn:Y.
    + exists [Prompted PROMPT_SHUTDOWN (Ok typed)]. split; [exact T|]. now constructor.
    + match goal with
      | |- context [bind (if ?c then print ?a else print ?b) _] =>
          set (text := if c then a else b);
          replace (if c then print a else print b) with (print text)
            by (subst text; destruct c; reflexivity)
      end.
      erewrite bind_ok by reflexivity.
      destruct (IH (record (Printed text) s1)) as (new & E & W).
      { specialize (L typed eq_refl). cbn [record stdin]. lia. }
      exists (Prompted PROMPT_SHUTDOWN (Ok typed) :: Printed text :: new).
      split.
      * rewrite E. cbn [record trace]. rewrite T. now rewrite <- !app_assoc.
      * now constructor.
  - erewrite bind_raise by exact I.
    exists [Prompted PROMPT_SHUTDOWN (Raise e)]. split; [exact T | constructor].
Qed.

Lemma shutdown_prompt_waits (s : state) :
  exists new,
    trace (fst (shutdown_prompt s)) = trace s ++ new
    /\ waiting (snd (shutdown_prompt s)) new.
Proof. unfold shutdown_prompt. apply shutdown_loop_waits. lia. Qed.

Lemma waiting_no_quit (r : result unit) (tr : list entry) :
  waiting r tr -> Forall (fun e => is_quit e = false) tr.
Proof. induction 1; repeat constructor; assumption. Qed.

Lemma waiting_confirmed_last (tr : list entry) :
  waiting (Ok tt) tr ->
  exists earlier typed,
    tr = earlier ++ [Prompted PROMPT_SHUTDOWN (Ok typed)]
    /\ affirmative typed = true
    /\ Forall (fun e => is_quit e = false) earlier.
Proof.
  remember (Ok tt) as r eqn:Hr. induction 1 as [typed A| e |typed msg r rest A W IH].
  - exists [], typed. repeat split; auto.
  - discriminate.
  - destruct (IH Hr) as (earlier & t & -> & At & F).
    exists (Prompted PROMPT_SHUTDOWN (Ok typed) :: Printed msg :: earlier), t.
    repeat split; auto.
Qed.

Lemma guarded_after (pre new : list entry) :
  Forall (fun e => is_quit e = false) pre -> guarded new -> guarded (pre ++ new).
Proof.
  intros P [F | (earlier & typed & q & later & -> & A & Fe & Fl)].
  - left. now apply Forall_app.
  - right. exists (pre ++ earlier), typed, q, later.
    rewrite <- app_assoc. repeat split; auto. now apply Forall_app.
Qed.

Lemma quit_guarded_quiet {A : Type} (m : M A) :
  emits (fun e => is_quit e = false) m -> quit_guarded m.
Proof. intros H s. destruct (H s) as (new & E & F). exists new. split; [exact E | now left]. Qed.

Lemma quit_guarded_bind {A B : Type} (m : M A) (k : A -> M B) :
  emits (fun e => is_quit e = false) m ->
  (forall a, quit_guarded (k a)) ->
  quit_guarded (bind m k).
Proof.
  intros Hm Hk s. unfold bind. destruct (Hm s) as (n1 & E1 & F1).
  destruct (m s) as [s1 [a|e]]; cbn [fst] in E1.
  - destruct (Hk a s1) as (n2 & E2 & G2). exists (n1 ++ n2).
    rewrite E2, E1, app_assoc. split; [reflexivity|]. now apply guarded_after.
  - exists n1. split; [exact E1 | now left].
Qed.

Lemma quit_guarded_shutdown {A : Type} (k : M A) :
  emits (fun e => is_quit e = false) k ->
  quit_guarded (bind shutdown_prompt (fun _ => bind (perform QuitDriver) (fun _ => k))).
Proof.
  intros Hk s. unfold bind at 1.
  destruct (shutdown_prompt_waits s) as (n1 & E1 & W).
  destruct (shutdown_prompt s) as [s1 [[]|e]]; cbn [fst snd] in *.
  - destruct (waiting_confirmed_last _ W) as (earlier & typed & -> & At & Fe).
    unfold bind, perform.
    destruct (answer QuitDriver (world s1)) as [w2 q].
    destruct q as [[]|e].
    + match goal with |- context [k ?x] => destruct (Hk x) as (n3 & E3 & F3) end.
      eexists. split.
      * rewrite E3. cbn [record trace]. rewrite E1, <- !app_assoc. cbn [app]. reflexivity.
      * right. exists earlier, typed, (Ok tt), n3. repeat split; auto.
    + eexists. split.
      * cbn [fst record trace]. rewrite E1, <- !app_assoc. cbn [app]. reflexivity.
      * right. exists earlier, typed, (Raise e), []. repeat split; auto.
  - exists n1. split; [exact E1|]. left. exact (waiting_no_quit _ _ W).
Qed.


Lemma loop_entry_quiet (urls : list str) (e : entry) :
  loop_entry urls e = true -> quiet e = true.
Proof.
  destruct e as [T c r|lvl f a|t|p t]; try reflexivity.
  unfold loop_entry. rewrite existsb_exists. intros [u [_ L]].
  destruct c; simpl in L |- *; congruence.
Qed.

Lemma quiet_no_quit (e : entry) : quiet e = true -> is_quit e = false.
Proof. destruct e as [T c r|lvl f a|t|p t]; try reflexivity. destruct c; easy. Qed.

Lemma run_links_emits (main_handle : handle) (total : nat) (links : list (nat * str)) :
  emits (fun e => loop_entry (map snd links) e = true)
        (run_links main_handle total links).
Proof.
  intros s. unfold run_links.
  destruct (for_links_counts main_handle total links 1
              {| success_count := 0; failed_links := [] |} s)
    as (n1 & E1 & _ & _ & _ & F1).
  destruct (for_links main_handle total 1 links _ s) as [s1 [c [[]|e]]];
    cbn [fst] in *.
  - now exists n1.
  - destruct (is_KeyboardInterrupt e).
    + eexists (n1 ++ [_; _]). split.
      * cbn. rewrite E1. now rewrite <- !app_assoc.
      * apply Forall_app. split; [exact F1 | repeat constructor].
    + now exists n1.
Qed.

Lemma session_quit_guarded (total : nat) (links : list (nat * str)) :
  quit_guarded (session total links).
Proof.
  unfold session.
  repeat first
    [ apply quit_guarded_shutdown; repeat emits_step; reflexivity
    | apply quit_guarded_bind; [|intros] ];
    try (repeat emits_step; reflexivity).
  eapply emits_weaken; [|apply run_links_emits].
  intros e L. apply quiet_no_quit. now apply loop_entry_quiet with (map snd links).
Qed.

Lemma resolve_links_file_emits (P : entry -> Prop) (args : Namespace) :
  (forall p typed, P (Prompted p typed)) -> emits P (resolve_links_file args).
Proof.
  intros HP. unfold resolve_links_file.
  destruct (links_file args) as [path|]; repeat emits_step; auto.
Qed.

Lemma main_quit_guarded (args : Namespace) : quit_guarded (main args).
Proof.
  unfold main.
  apply quit_guarded_bind; [emits_step|intros _].
  apply quit_guarded_bind; [apply resolve_links_file_emits; reflexivity|intros path].
  apply quit_guarded_bind; [emits_step; reflexivity|intros is_file].
  destruct (negb is_file).
  - apply quit_guarded_quiet. repeat emits_step; reflexivity.
  - apply quit_guarded_bind; [emits_step; reflexivity|intros raw_lines].
    cbv zeta.
    repeat (apply quit_guarded_bind; [emits_step; reflexivity|intros _]).
    destruct (length (links_of raw_lines) =? 0).
    + apply quit_guarded_quiet. repeat emits_step; reflexivity.
    + apply session_quit_guarded.
Qed.

Lemma split_at_quit (a b a' b' : list entry) (x x' : entry) :
  a ++ x :: b = a' ++ x' :: b' ->
  is_quit x' = true ->
  Forall (fun e => is_quit e = false) a ->
  Forall (fun e => is_quit e = false) b ->
  a = a'.
Proof.
  revert a'; induction a as [|y a IH]; intros [|y' a'] E Q Fa Fb; cbn in E.
  - reflexivity.
  - injection E as -> ->. apply Forall_app in Fb as [_ Fb].
    inversion Fb; subst. congruence.
  - injection E as -> _. inversion Fa; subst. congruence.
  - injection E as -> E. inversion Fa; subst. f_equal. now apply IH.
Qed.

(** C4.  The shutdown prompt goes on prompting: after a typed line that is
    not the affirmative one it prints a message and prompts again; the wait
    ends on the affirmative line ("y" once stripped and lower-cased), or
    with the exception the prompt raised.  In a run of [main], a
    [driver.quit()] comes right after an affirmative answer to that prompt
    and nowhere else. *)
Theorem shutdown_needs_confirmation :
  (forall s,
      exists new,
        trace (fst (shutdown_prompt s)) = trace s ++ new
        /\ waiting (snd (shutdown_prompt s)) new)
  /\ (forall args s before q after,
         trace (fst (main args s)) = trace s ++ before ++ Called QuitDriver q :: after ->
         exists earlier typed,
           before = earlier ++ [Prompted PROMPT_SHUTDOWN (Ok typed)]
           /\ affirmative typed = true).
Proof.
  split; [exact shutdown_prompt_waits|].
  intros args s before q after E.
  destruct (main_quit_guarded args s) as (new & En & G).
  rewrite En in E. apply app_inv_head in E. subst new.
  destruct G as [F | (earlier & typed & q' & later & E & A & Fe & Fl)].
  - apply Forall_app in F as [_ F]. inversion F; subst. discriminate.
  - exists earlier, typed. split; [|exact A].
    change (earlier ++ Prompted PROMPT_SHUTDOWN (Ok typed) :: Called QuitDriver q' :: later)
      with (earlier ++ [Prompted PROMPT_SHUTDOWN (Ok typed)] ++ Called QuitDriver q' :: later)
      in E.
    rewrite app_assoc in E.
    symmetry. eapply split_at_quit; [symmetry; exact E | reflexivity | | exact Fl].
    apply Forall_app. split; [exact Fe | repeat constructor].
Qed.

End Shutdown.

(** ** Exit status *)

Section ExitStatus.
Context {R : Runtime}.

(** The world raises no [SystemExit]: only the script calls [sys.exit]. *)
Hypothesis world_never_exits :
  forall (T : Type) (c : call T) (w : World) (code : Z),
    snd (answer c w) <> Raise (SystemExit code).

Let stays (e : exn) : Prop := is_exit e = false.

Lemma passes_ret {A : Type} (a : A) : passes stays (ret a).
Proof. intros s e H. discriminate. Qed.

Lemma passes_raise {A : Type} (e : exn) : stays e -> passes stays (@raise _ A e).
Proof. intros He s e' H. injection H as <-. exact He. Qed.

Lemma passes_perform {T : Type} (c : call T) : passes stays (perform c).
Proof.
  intros s e. unfold perform. pose proof (world_never_exits T c (world s)) as N.
  destruct (answer c (world s)) as [w r]. cbn. intros ->.
  destruct e; try reflexivity. now destruct (N code).
Qed.

Lemma passes_print (text : str) : passes stays (print text).
Proof. intros s e H. discriminate. Qed.

Lemma passes_log (lvl : level) (fmt : str) (args : list arg) : passes stays (log lvl fmt args).
Proof. intros s e H. discriminate. Qed.

Lemma passes_get_PAGE_TIMEOUT : passes stays get_PAGE_TIMEOUT.
Proof. intros s e H. discriminate. Qed.

Lemma passes_set_PAGE_TIMEOUT (t : Z) : passes stays (set_PAGE_TIMEOUT t).
Proof. intros s e H. discriminate. Qed.

Lemma passes_input (prompt : str) : passes stays (input prompt).
Proof.
  intros s e. unfold input. cbn.
  destruct (stdin s) as [|[l|] rest]; intros H; inversion H; reflexivity.
Qed.

Lemma passes_bind {A B : Type} (m : M A) (k : A -> M B) :
  passes stays m -> (forall a, passes stays (k a)) -> passes stays (bind m k).
Proof.
  intros Hm Hk s e. unfold bind. specialize (Hm s).
  destruct (m s) as [s1 [a|e1]]; cbn in *.
  - apply Hk.
  - intros H. injection H as <-. now apply Hm.
Qed.

Lemma passes_try_except {A : Type} (m : M A) (handler : exn -> option (M A)) :
  passes stays m -> (forall e k, handler e = Some k -> passes stays k) ->
  passes stays (try_except m handler).
Proof.
  intros Hm Hh s e. unfold try_except. specialize (Hm s).
  destruct (m s) as [s1 [a|e1]]; cbn in *.
  - discriminate.
  - destruct (handler e1) as [k|] eqn:K.
    + apply (Hh e1 k K).
    + intros H. injection H as <-. now apply Hm.
Qed.

End ExitStatus.

(** Splits a [passes] goal along the structure of the computation. *)
Ltac passes_step :=
  match goal with
  | |- passes _ (ret _) => apply passes_ret
  | |- passes _ get_PAGE_TIMEOUT => apply passes_get_PAGE_TIMEOUT
  | |- passes _ (set_PAGE_TIMEOUT _) => apply passes_set_PAGE_TIMEOUT
  | |- passes _ (perform _) => apply passes_perform; assumption
  | |- passes _ (print _) => apply passes_print
  | |- passes _ (log _ _ _) => apply passes_log
  | |- passes _ (input _) => apply passes_input
  | |- passes _ (bind _ _) => apply passes_bind; [|intros]
  | |- passes _ (pass_WebDriverException _) => unfold pass_WebDriverException
  | |- passes _ (try_except _ _) =>
      let e := fresh "e" in
      let k := fresh "k" in
      let H := fresh "H" in
      apply passes_try_except;
      [|intros e k H;
        repeat match type of H with
               | (if ?b then _ else _) = Some _ => destruct b
               end;
        inversion H; subst; clear H]
  | |- passes _ (if ?b then _ else _) => destruct b
  | |- passes _ (match ?x with Some _ => _ | None => _ end) => destruct x
  end.

Section TraceFacts.
Context {R : Runtime}.

Lemma quiet_not_file_call (e : entry) : quiet e = true -> not_file_call e = true.
Proof. destruct e as [T c r|lvl f a|t|p t]; try reflexivity. destruct c; easy. Qed.

Lemma quiet_no_launch (e : entry) : quiet e = true -> is_launch e = false.
Proof. destruct e as [T c r|lvl f a|t|p t]; try reflexivity. destruct c; easy. Qed.

Lemma not_file_call_facts (e : entry) :
  not_file_call e = true -> file_missing e = false /\ lines_read e = None.
Proof. destruct e as [T c r|lvl f a|t|p t]; auto. destruct c; simpl; auto; discriminate. Qed.

Lemma no_file_answers (tr : list entry) :
  Forall (fun e => not_file_call e = true) tr ->
  existsb file_missing tr = false
  /\ forall raw, ~ In (Some raw) (map lines_read tr).
Proof.
  induction 1 as [|e tr He _ [IH1 IH2]]; cbn.
  - split; [reflexivity | tauto].
  - destruct (not_file_call_facts e He) as [-> ->]. split; [exact IH1|].
    intros raw [H|H]; [discriminate | exact (IH2 raw H)].
Qed.

Lemma no_launches (tr : list entry) :
  Forall (fun e => quiet e = true) tr -> existsb is_launch tr = false.
Proof.
  induction 1 as [|e tr He _ IH]; cbn; [reflexivity|].
  now rewrite (quiet_no_launch e He).
Qed.

Lemma shutdown_prompt_emits : emits (fun e => quiet e = true) shutdown_prompt.
Proof.
  intros s. destruct (shutdown_prompt_waits s) as (new & E & W).
  exists new. split; [exact E|]. clear E.
  induction W; repeat constructor; assumption.
Qed.

Lemma perform_run {T : Type} (c : call T) (s s' : state) (r : result T) :
  perform c s = (s', r) -> trace s' = trace s ++ [Called c r].
Proof.
  unfold perform. destruct (answer c (world s)) as [w r0].
  intros H. injection H as <- <-. reflexivity.
Qed.

Lemma stays_not_exit {A : Type} (e : exn) (code : Z) :
  is_exit e = false -> terminate (@Raise A e) <> Exit code.
Proof. destruct e; simpl; congruence. Qed.

End TraceFacts.

Section ExitStatusOfMain.
Context {R : Runtime}.

Hypothesis world_never_exits :
  forall (T : Type) (c : call T) (w : World) (code : Z),
    snd (answer c w) <> Raise (SystemExit code).

Let stays (e : exn) : Prop := is_exit e = false.

Lemma close_popup_tabs_passes (keep_handle : handle) :
  passes stays (close_popup_tabs keep_handle).
Proof.
  unfold close_popup_tabs. repeat passes_step.
  induction a as [|h rest IH]; cbn [close_each]; repeat passes_step. exact IH.
Qed.

Lemma process_link_passes (url : str) (main_handle : handle) :
  passes stays (process_link url main_handle).
Proof.
  assert (Hany : forall phrases, passes stays (any_phrase phrases)).
  { induction phrases as [|p rest IH]; cbn [any_phrase]; repeat passes_step. exact IH. }
  assert (Hfind : forall sels, passes stays (find_among sels)).
  { induction sels as [|p rest IH]; cbn [find_among]; unfold try_selector;
      repeat passes_step. exact IH. }
  unfold process_link, is_page_invalid, find_download_button, await_download_button.
  repeat first
    [ apply close_popup_tabs_passes | apply Hany | apply Hfind | passes_step ].
Qed.

Lemma acknowledge_passes (outcome : bool * str) : passes stays (acknowledge outcome).
Proof. unfold acknowledge. repeat passes_step. Qed.

Lemma for_links_passes (main_handle : handle) (total : nat) (links : list (nat * str)) :
  forall idx c s e,
    snd (snd (for_links main_handle total idx links c s)) = Raise e -> stays e.
Proof.
  induction links as [|[line_no url] rest IH]; intros idx c s e; cbn [for_links].
  - discriminate.
  - set (m := bind _ _).
    assert (Hm : passes stays m).
    { subst m. repeat passes_step. apply process_link_passes. }
    specialize (Hm s). clearbody m.
    destruct (m s) as [s1 [outcome|e1]]; cbn [snd] in *.
    + pose proof (acknowledge_passes outcome s1) as Ha.
      destruct (acknowledge outcome s1) as [s2 [[]|e2]]; cbn [snd] in *.
      * apply IH.
      * intros H. injection H as <-. now apply Ha.
    + intros H. injection H as <-. now apply Hm.
Qed.

Lemma run_links_passes (main_handle : handle) (total : nat) (links : list (nat * str)) :
  passes stays (run_links main_handle total links).
Proof.
  intros s e. unfold run_links.
  pose proof (for_links_passes main_handle total links 1
                {| success_count := 0; failed_links := [] |} s) as H.
  destruct (for_links main_handle total 1 links _ s) as [s1 [c [[]|e1]]];
    cbn [snd] in *.
  - discriminate.
  - destruct (is_KeyboardInterrupt e1).
    + discriminate.
    + intros E. injection E as <-. now apply H.
Qed.

Lemma shutdown_prompt_passes : passes stays shutdown_prompt.
Proof.
  assert (H : forall fuel, passes stays (shutdown_loop fuel)).
  { induction fuel as [|n IH]; cbn [shutdown_loop].
    - now apply passes_raise.
    - repeat passes_step; exact IH. }
  intros s. apply H.
Qed.

Lemma session_passes (total : nat) (links : list (nat * str)) :
  passes stays (session total links).
Proof.
  unfold session.
  repeat first [ apply run_links_passes | apply shutdown_prompt_passes | passes_step ].
Qed.

Lemma resolve_links_file_passes (args : Namespace) :
  passes stays (resolve_links_file args).
Proof.
  unfold resolve_links_file. destruct (links_file args); repeat passes_step.
Qed.

Lemma session_emits (total : nat) (links : list (nat * str)) :
  emits (fun e => not_file_call e = true) (session total links).
Proof.
  unfold session.
  repeat first
    [ eapply emits_weaken; [|apply run_links_emits]
    | eapply emits_weaken; [|apply shutdown_prompt_emits]
    | emits_step ];
    try reflexivity.
  - intros e L. apply loop_entry_quiet in L. now apply quiet_not_file_call.
  - intros e L. now apply quiet_not_file_call.
Qed.

(** C8 (as amended).  In a run of [main]: when [os.path.isfile] answers
    [False] for the links file the script exits with status 1 and launches no
    browser; when the file read has no non-blank line it exits with status 0
    after the warning, and launches no browser; and whenever the script ends
    with an exit status at all (it may also end with an uncaught exception),
    that status is 1 for a missing file and 0 otherwise. *)
Theorem exit_status_of_main (args : Namespace) (s : state) :
  exists new,
    trace (fst (main args s)) = trace s ++ new
    /\ (existsb file_missing new = true ->
        terminate (snd (main args s)) = Exit 1
        /\ existsb is_launch new = false)
    /\ (forall raw_lines,
           In (Some raw_lines) (map lines_read new) ->
           non_blank_lines raw_lines = 0 ->
           terminate (snd (main args s)) = Exit 0
           /\ In (Logged WARNING WARN_NO_LINKS []) new
           /\ existsb is_launch new = false)
    /\ (forall code,
           terminate (snd (main args s)) = Exit code ->
           (code = 1%Z /\ existsb file_missing new = true) \/ code = 0%Z).
Proof.
  unfold main.
  erewrite bind_ok by reflexivity.
  match goal with |- context [bind (resolve_links_file args) _ ?x] => set (s0 := x) end.
  assert (T0 : trace s0 = trace s) by reflexivity. clearbody s0.
  destruct (resolve_links_file args s0) as [s1 [path|e]] eqn:E1;
    destruct (emits_run (fun e => quiet e = true) (resolve_links_file args)
                (resolve_links_file_emits _ args (fun _ _ => eq_refl)) E1)
      as (n1 & T1 & Q1);
    pose proof (no_launches n1 Q1) as L1;
    destruct (no_file_answers n1
                (Forall_impl _ quiet_not_file_call Q1)) as [M1 R1];
    rewrite T0 in T1.
  2:{ (* the prompt for the path raised *)
    erewrite bind_raise by exact E1. cbn [fst snd].
    exists n1. split; [exact T1|]. split; [|split].
    - rewrite M1. discriminate.
    - intros raw I. now destruct (R1 raw I).
    - intros code H. exfalso. revert H. apply stays_not_exit.
      pose proof (resolve_links_file_passes args s0 e) as P.
      rewrite E1 in P. now apply P. }
  erewrite bind_ok by exact E1.
  destruct (perform (IsFile path) s1) as [s2 [is_file|e]] eqn:E2;
    pose proof (perform_run _ _ _ _ E2) as T2; rewrite T1 in T2.
  2:{ (* isfile raised *)
    erewrite bind_raise by exact E2. cbn [fst snd].
    eexists. split; [rewrite T2, <- app_assoc; reflexivity|].
    split; [|split]; rewrite ?existsb_app, ?map_app, ?M1, ?L1;
      cbn [existsb map file_missing is_launch lines_read orb].
    - discriminate.
    - intros raw I. apply in_app_or in I as [I|[I|[]]]; [now destruct (R1 raw I) | discriminate].
    - intros code H. exfalso. revert H. apply stays_not_exit.
      pose proof (passes_perform world_never_exits (IsFile path) s1 e) as P.
      rewrite E2 in P. now apply P. }
  erewrite bind_ok by exact E2.
  destruct is_file; cbn [negb].
  2:{ (* the file is not there *)
    erewrite bind_ok by reflexivity. cbn [raise fst snd record trace].
    eexists. split; [rewrite T2, <- !app_assoc; reflexivity|].
    split; [|split]; rewrite ?existsb_app, ?map_app, ?M1, ?L1;
      cbn [existsb map file_missing is_launch lines_read orb].
    - auto.
    - intros raw I. apply in_app_or in I as [I|[I|[I|[]]]];
        [now destruct (R1 raw I) | discriminate | discriminate].
    - intros code H. injection H as <-. left. auto. }
  destruct (perform (ReadLines path) s2) as [s3 [raw_lines|e]] eqn:E3;
    pose proof (perform_run _ _ _ _ E3) as T3; rewrite T2 in T3.
  2:{ (* readlines raised *)
    erewrite bind_raise by exact E3. cbn [fst snd].
    eexists. split; [rewrite T3, <- !app_assoc; reflexivity|].
    split; [|split]; rewrite ?existsb_app, ?map_app, ?M1, ?L1;
      cbn [existsb map file_missing is_launch lines_read orb].
    - discriminate.
    - intros raw I. apply in_app_or in I as [I|[I|[I|[]]]];
        [now destruct (R1 raw I) | discriminate | discriminate].
    - intros code H. exfalso. revert H. apply stays_not_exit.
      pose proof (passes_perform world_never_exits (ReadLines path) s2 e) as P.
      rewrite E3 in P. now apply P. }
  erewrite bind_ok by exact E3. cbv zeta.
  do 8 (erewrite bind_ok by reflexivity).
  destruct (length (links_of raw_lines) =? 0) eqn:Z.
  - (* no link in the file *)
    erewrite bind_ok by reflexivity. cbn [raise fst snd record trace].
    eexists. split; [rewrite T3, <- !app_assoc; reflexivity|].
    split; [|split]; rewrite ?existsb_app, ?map_app, ?M1, ?L1;
      cbn [existsb map file_missing is_launch lines_read orb].
    + discriminate.
    + intros raw I N. split; [reflexivity|]. split; [|reflexivity].
      apply in_or_app. right. cbn. tauto.
    + intros code H. injection H as <-. now right.
  - (* the session *)
    match goal with |- context [session _ _ ?x] => set (s4 := x) end.
    assert (exists mid, trace s4 = trace s3 ++ mid
                        /\ Forall (fun e => quiet e = true) mid) as (mid & T4 & Q4).
    { subst s4. eexists. split.
      - cbn [record trace]. rewrite <- !app_assoc. cbn [app]. reflexivity.
      - repeat constructor. }
    clearbody s4. rewrite T3 in T4.
    pose proof (no_launches mid Q4) as L4.
    destruct (no_file_answers mid (Forall_impl _ quiet_not_file_call Q4)) as [M4 R4].
    destruct (session_emits (length (links_of raw_lines)) (links_of raw_lines) s4)
      as (n5 & T5 & F5).
    destruct (no_file_answers n5 F5) as [M5 R5].
    pose proof (session_passes (length (links_of raw_lines))
                  (links_of raw_lines) s4) as P5.
    destruct (session (length (links_of raw_lines)) (links_of raw_lines) s4)
      as [s5 r5]; cbn [fst snd] in *.
    eexists. split; [rewrite T5, T4, <- !app_assoc; reflexivity|].
    split; [|split]; rewrite ?existsb_app, ?map_app, ?M1, ?M4, ?M5;
      cbn [existsb map file_missing lines_read orb app];
      rewrite ?existsb_app, ?map_app, ?M1, ?M4, ?M5.
    + discriminate.
    + intros raw I N. exfalso.
      apply in_app_or in I as [I|[I|[I|I]]].
      * exact (R1 raw I).
      * discriminate.
      * injection I as <-. rewrite links_of_length, N in Z. discriminate.
      * apply in_app_or in I as [I|I]; [exact (R4 raw I) | exact (R5 raw I)].
    + intros code H. destruct r5 as [sm|e].
      * injection H as <-. now right.
      * exfalso. revert H. apply stays_not_exit. now apply P5.
Qed.

End ExitStatusOfMain.

(** ** The addresses loaded *)

Section Addresses.
Context {R : Runtime}.

Lemma link_url_stripped (raw_lines : list str) (n : nat) (url : str) :
  In (n, url) (links_of raw_lines) ->
  no_surrounding_space url
  /\ exists line pre post,
       nth_error raw_lines (n - 1) = Some line
       /\ line = pre ++ url ++ post
       /\ blank pre = true /\ blank post = true.
Proof.
  intros H. apply in_links_of in H as (line & Hn & Hl & B & ->).
  split.
  - split; [|split].
    + intros E. apply strip_nil in E. congruence.
    + intros c rest E. exact (strip_first _ _ _ E).
    + intros c rest E. exact (strip_last _ _ _ E).
  - destruct (strip_split line) as (pre & post & E & Bpre & Bpost).
    now exists line, pre, post.
Qed.

(** C10.  A line of white space only gives no link, like an empty line.
    The URL of a link is its line without the white space before and after
    it (the newline included): it is not empty and neither starts nor ends
    with white space.  Every address the per-link loop loads is the URL of
    one of the links. *)
Theorem links_are_stripped_lines (raw_lines : list str) :
  (forall i line,
      nth_error raw_lines i = Some line -> blank line = true ->
      ~ In (i + 1) (map fst (links_of raw_lines)))
  /\ (forall n url,
         In (n, url) (links_of raw_lines) ->
         no_surrounding_space url
         /\ exists line pre post,
              nth_error raw_lines (n - 1) = Some line
              /\ line = pre ++ url ++ post
              /\ blank pre = true /\ blank post = true)
  /\ (forall main_handle total idx c s,
       exists new,
         trace (fst (for_links main_handle total idx (links_of raw_lines) c s))
         = trace s ++ new
         /\ forall url r,
              In (Called (Get url) r) new ->
              In url (map snd (links_of raw_lines)) /\ no_surrounding_space url).
Proof.
  split; [|split].
  - intros i line Hn B I. apply in_map_iff in I as [[n url] [E I]].
    simpl in E. subst n. apply in_links_of in I as (line' & _ & Hn' & B' & _).
    replace (i + 1 - 1) with i in Hn' by lia. congruence.
  - intros n url. apply link_url_stripped.
  - intros main_handle total idx c s.
    destruct (for_links_counts main_handle total (links_of raw_lines) idx c s)
      as (new & E & _ & _ & _ & F).
    exists new. split; [exact E|]. intros url r I.
    rewrite Forall_forall in F. specialize (F _ I).
    unfold loop_entry in F. apply existsb_exists in F as [u [Hu L]].
    cbn in L. apply eqb_eq in L. subst u. split; [exact Hu|].
    apply in_map_iff in Hu as [[n url'] [Eu Hu]]. simpl in Eu. subst url'.
    now apply link_url_stripped in Hu.
Qed.

End Addresses.

(** ** The script on concrete runs *)

Example healthy_run :
  snd (@main (scripted healthy) links_txt
         (start healthy [Line []; Line []; Line (lit "n"); Line (lit " Y ")]))
  = Ok {| total_links := 2; processed := 2; successful := 2;
          failed_count := 0; failures := [] |}.
Proof. vm_compute. reflexivity. Qed.

Example healthy_links :
  links_of (file_lines healthy)
  = [(1, file_a); (3, lit "https://www.mediafire.com/file/b")].
Proof. vm_compute. reflexivity. Qed.

Example healthy_button :
  snd (@find_download_button (scripted healthy) (start healthy [])) = Ok (Some button).
Proof. vm_compute. reflexivity. Qed.

(** C1, as stated, fails: Ctrl-C while the first of two links loads ends
    the loop with no outcome counted, and the summary reports 0 links
    processed out of 2. *)
Lemma interrupted_run_counts_no_outcome :
  non_blank_lines (file_lines interrupted) = 2
  /\ snd (@main (scripted interrupted) links_txt (start interrupted [Line (lit "y")]))
     = Ok {| total_links := 2; processed := 0; successful := 0;
             failed_count := 0; failures := [] |}
  /\ snd (@for_links (scripted interrupted) main_tab 2 1
            (links_of (file_lines interrupted))
            {| success_count := 0; failed_links := [] |}
            (start interrupted []))
     = ({| success_count := 0; failed_links := [] |}, Raise KeyboardInterrupt).
Proof. vm_compute. repeat split. Qed.

(** C2, as stated, fails on the reason: it reads "MediaFire reports file
    as invalid or deleted". *)
Lemma invalid_page_reason :
  snd (@process_link (scripted deleted) file_a main_tab (start deleted []))
  = Ok (false, MSG_INVALID)
  /\ MSG_INVALID <> lit "file reported invalid or deleted".
Proof. split; [vm_compute; reflexivity | vm_compute; discriminate]. Qed.

Lemma invalid_page_witness :
  @perform (scripted deleted) _ (Get file_a) (start deleted []) = (deleted_loaded, Ok tt)
  /\ @close_popup_tabs (scripted deleted) main_tab deleted_loaded = (deleted_reaped, Ok tt)
  /\ @is_page_invalid (scripted deleted) deleted_reaped = (deleted_checked, Ok true)
  /\ @process_link (scripted deleted) file_a main_tab (start deleted [])
     = (deleted_checked, Ok (false, MSG_INVALID))
  /\ exists new,
       trace deleted_checked = trace (start deleted []) ++ new
       /\ Forall (fun e => control_search e = false) new.
Proof.
  assert (H1 : @perform (scripted deleted) _ (Get file_a) (start deleted [])
               = (deleted_loaded, Ok tt)) by (vm_compute; reflexivity).
  assert (H2 : @close_popup_tabs (scripted deleted) main_tab deleted_loaded
               = (deleted_reaped, Ok tt)) by (vm_compute; reflexivity).
  assert (H3 : @is_page_invalid (scripted deleted) deleted_reaped
               = (deleted_checked, Ok true)) by (vm_compute; reflexivity).
  exact (conj H1 (conj H2 (conj H3
           (@invalid_page_stops_processing (scripted deleted) file_a main_tab
              (start deleted []) deleted_loaded deleted_reaped deleted_checked
              H1 H2 H3)))).
Defined.

(** C3, as stated, fails on the reason: it reads "Download button not
    found on page". *)
Lemma missing_button_reason :
  snd (@process_link (scripted bare) file_a main_tab (start bare []))
  = Ok (false, MSG_NOT_FOUND)
  /\ MSG_NOT_FOUND <> lit "download control not found".
Proof. split; [vm_compute; reflexivity | vm_compute; discriminate]. Qed.

Lemma missing_button_witness :
  @perform (scripted bare) _ (Get file_a) (start bare []) = (bare_loaded, Ok tt)
  /\ @close_popup_tabs (scripted bare) main_tab bare_loaded = (bare_reaped, Ok tt)
  /\ @is_page_invalid (scripted bare) bare_reaped = (bare_checked, Ok false)
  /\ @await_download_button (scripted bare) bare_checked = (bare_awaited, Ok tt)
  /\ @find_download_button (scripted bare) bare_awaited = (bare_searched, Ok None)
  /\ @process_link (scripted bare) file_a main_tab (start bare [])
     = (bare_searched, Ok (false, MSG_NOT_FOUND))
  /\ exists new,
       trace bare_searched = trace (start bare []) ++ new
       /\ Forall (fun e => is_click e = false) new.
Proof.
  assert (H1 : @perform (scripted bare) _ (Get file_a) (start bare [])
               = (bare_loaded, Ok tt)) by (vm_compute; reflexivity).
  assert (H2 : @close_popup_tabs (scripted bare) main_tab bare_loaded
               = (bare_reaped, Ok tt)) by (vm_compute; reflexivity).
  assert (H3 : @is_page_invalid (scripted bare) bare_reaped
               = (bare_checked, Ok false)) by (vm_compute; reflexivity).
  assert (H4 : @await_download_button (scripted bare) bare_checked
               = (bare_awaited, Ok tt)) by (vm_compute; reflexivity).
  assert (H5 : @find_download_button (scripted bare) bare_awaited
               = (bare_searched, Ok None)) by (vm_compute; reflexivity).
  exact (conj H1 (conj H2 (conj H3 (conj H4 (conj H5
           (@missing_button_is_not_clicked (scripted bare) file_a main_tab
              (start bare []) bare_loaded bare_reaped bare_checked bare_awaited
              bare_searched H1 H2 H3 H4 H5)))))).
Defined.

(** The page of the scripted browser. *)
Lemma scripted_shows (sc : script) :
  (forall T (c : call T), fault sc T c = None) ->
  @shows (scripted sc) tt {| query := matches sc; displayed := shown sc |}.
Proof.
  intros NF. split.
  - intros sel. cbn. unfold scripted_answer. rewrite NF.
    destruct (matches sc sel); [reflexivity | eexists; reflexivity].
  - intros el. cbn. unfold scripted_answer. rewrite NF. reflexivity.
Defined.

Lemma find_download_button_witness :
  exists s' found,
    @find_download_button (scripted healthy) (start healthy []) = (s', Ok found)
    /\ (forall b,
           found = Some b <->
           exists pre sel post,
             DOWNLOAD_BUTTON_SELECTORS = pre ++ sel :: post
             /\ Forall (fun x => visible_match
                                   {| query := matches healthy; displayed := shown healthy |}
                                   x = false) pre
             /\ matches healthy sel = Some b /\ shown healthy b = true)
    /\ (found = None <->
        Forall (fun x => visible_match
                           {| query := matches healthy; displayed := shown healthy |}
                           x = false) DOWNLOAD_BUTTON_SELECTORS).
Proof.
  exact (@find_download_button_first_visible (scripted healthy)
           {| query := matches healthy; displayed := shown healthy |}
           (start healthy [])
           (scripted_shows healthy (fun _ _ => eq_refl))).
Defined.

Lemma is_page_invalid_witness :
  @answer (scripted deleted) _ PageSource tt = (tt, Ok (page_text deleted))
  /\ exists s' b,
       @is_page_invalid (scripted deleted) (start deleted []) = (s', Ok b)
       /\ (b = true <->
           exists p,
             In p [ lit "invalid or deleted"; lit "file not found";
                    lit "this file has been deleted"; lit "unavailable";
                    lit "error occurred" ]
             /\ exists pre post,
                  ascii_lower (page_text deleted) = pre ++ p ++ post).
Proof.
  split; [reflexivity|].
  apply (@is_page_invalid_iff_phrase (scripted deleted) (page_text deleted)
           (start deleted [])).
  reflexivity.
Defined.

Example deleted_page_is_invalid :
  snd (@is_page_invalid (scripted deleted) (start deleted [])) = Ok true.
Proof. vm_compute. reflexivity. Qed.

(** C9, as stated, fails: when the window handles cannot be listed (the
    browser is gone), [close_popup_tabs] raises. *)
Lemma close_popup_tabs_raises :
  snd (@close_popup_tabs (scripted session_lost) main_tab (start session_lost []))
  = Raise (WebDriverException (lit "invalid session id")).
Proof. vm_compute. reflexivity. Qed.

Lemma scripted_selenium_errors (sc : script) :
  (forall T (c : call T) e, fault sc T c = Some e -> is_WebDriverException e = true) ->
  (forall h w e, snd (@answer (scripted sc) _ (SwitchToWindow h) w) = Raise e ->
                 is_WebDriverException e = true)
  /\ (forall w e, snd (@answer (scripted sc) _ CloseWindow w) = Raise e ->
                  is_WebDriverException e = true).
Proof.
  intros HF. split.
  - intros h w e. cbn. unfold scripted_answer.
    destruct (fault sc unit (SwitchToWindow h)) as [e'|] eqn:F; [|discriminate].
    intros H. injection H as <-. exact (HF _ _ _ F).
  - intros w e. cbn. unfold scripted_answer.
    destruct (fault sc unit CloseWindow) as [e'|] eqn:F; [|discriminate].
    intros H. injection H as <-. exact (HF _ _ _ F).
Defined.

Lemma stuck_popup_faults :
  forall T (c : call T) e, fault stuck_popup T c = Some e -> is_WebDriverException e = true.
Proof.
  intros T c e. unfold stuck_popup, with_fault. cbn [fault].
  destruct c; try discriminate.
  destruct (PyStr.eqb h ad_tab_1); [|discriminate].
  intros H. injection H as <-. reflexivity.
Defined.

Lemma close_popup_tabs_witness :
  exists s' segments back,
    @close_popup_tabs (scripted stuck_popup) main_tab (start stuck_popup []) = (s', Ok tt)
    /\ trace s'
       = trace (start stuck_popup [])
         ++ Called WindowHandles (Ok [main_tab; ad_tab_1; ad_tab_2])
            :: concat segments ++ [Called (SwitchToWindow main_tab) back]
    /\ Forall2 (tab_closing main_tab) [main_tab; ad_tab_1; ad_tab_2] segments
    /\ Forall (fun closed => exists h, closed = Some h /\ h <> main_tab
                                       /\ In h [main_tab; ad_tab_1; ad_tab_2])
         (closed_under None
            (concat segments ++ [Called (SwitchToWindow main_tab) back])).
Proof.
  exact (@close_popup_tabs_reaps (scripted stuck_popup) main_tab
           (proj1 (scripted_selenium_errors stuck_popup stuck_popup_faults))
           (proj2 (scripted_selenium_errors stuck_popup stuck_popup_faults))
           (start stuck_popup []) tt [main_tab; ad_tab_1; ad_tab_2] eq_refl).
Defined.

Example stuck_popup_closes_the_other :
  closed_under None
    (trace (fst (@close_popup_tabs (scripted stuck_popup) main_tab (start stuck_popup []))))
  = [Some ad_tab_2].
Proof. vm_compute. reflexivity. Qed.

(** C8, as stated, fails: the links file is there, the browser cannot be
    launched, and the run ends with an uncaught exception, not with status
    0. *)
Lemma launch_failure_is_no_exit_0 :
  file_present no_browser = true
  /\ terminate (snd (@main (scripted no_browser) links_txt (start no_browser [])))
     = Uncaught (WebDriverException (lit "unable to obtain driver for chrome")).
Proof. vm_compute. split; reflexivity. Qed.

Lemma scripted_never_exits (sc : script) :
  (forall T (c : call T) e, fault sc T c = Some e -> is_exit e = false) ->
  forall (T : Type) (c : call T) (w : @World (scripted sc)) (code : Z),
    snd (@answer (scripted sc) T c w) <> Raise (SystemExit code).
Proof.
  intros HF T c w code. cbn. unfold scripted_answer.
  destruct (fault sc T c) as [e|] eqn:F.
  - intros H. injection H as ->. specialize (HF _ _ _ F). discriminate.
  - destruct c; try discriminate. destruct (matches sc sel); discriminate.
Defined.

Lemma exit_status_witness :
  exists new,
    trace (fst (@main (scripted missing_file) links_txt (start missing_file [])))
    = trace (start missing_file []) ++ new
    /\ (existsb file_missing new = true ->
        terminate (snd (@main (scripted missing_file) links_txt (start missing_file [])))
        = Exit 1
        /\ existsb is_launch new = false)
    /\ (forall raw_lines,
           In (Some raw_lines) (map lines_read new) ->
           non_blank_lines raw_lines = 0 ->
           terminate (snd (@main (scripted missing_file) links_txt (start missing_file [])))
           = Exit 0
           /\ In (Logged WARNING WARN_NO_LINKS []) new
           /\ existsb is_launch new = false)
    /\ (forall code,
           terminate (snd (@main (scripted missing_file) links_txt (start missing_file [])))
           = Exit code ->
           (code = 1%Z /\ existsb file_missing new = true) \/ code = 0%Z).
Proof.
  apply (@exit_status_of_main (scripted missing_file)).
  apply scripted_never_exits. intros T c e H. discriminate H.
Defined.

Example missing_file_exits_1 :
  terminate (snd (@main (scripted missing_file) links_txt (start missing_file [])))
  = Exit 1.
Proof. vm_compute. reflexivity. Qed.

Example blank_file_exits_0 :
  terminate (snd (@main (scripted blank_file) links_txt (start blank_file [])))
  = Exit 0
  /\ existsb is_launch
       (trace (fst (@main (scripted blank_file) links_txt (start blank_file []))))
     = false.
Proof. vm_compute. split; reflexivity. Qed.

(** ** More on the single-link routine *)

Section SingleLinkOutcomes.
Context {R : Runtime}.

Lemma try_except_raise {A : Type} (m : M A) (handler : exn -> option (M A))
    (s s1 : state) (e : exn) :
  m s = (s1, Raise e) ->
  try_except m handler s
  = match handler e with Some k => k s1 | None => (s1, Raise e) end.
Proof. unfold try_except. now intros ->. Qed.

(** X1.  A failed page load ends the work on the link at once.  When
    [driver.get] raises a selenium error, [process_link] returns a failure in
    the state the load left, so nothing else is done for the link; the
    reason is "Page load timed out" for a [TimeoutException] and "WebDriver
    error: " followed by the message for any other selenium error.  An
    exception that is no selenium error (Ctrl-C among them) is not caught. *)
Theorem failed_load_is_terminal (url : str) (main_handle : handle)
    (s s1 : state) (e : exn) :
  perform (Get url) s = (s1, Raise e) ->
  process_link url main_handle s
  = (s1,
     if is_TimeoutException e then Ok (false, lit "Page load timed out")
     else if is_WebDriverException e
          then Ok (false, lit "WebDriver error: " ++ exn_msg e)
          else Raise e).
Proof.
  intros H. unfold process_link.
  assert (E : bind (perform (Get url)) (fun _ => ret (@None (bool * str))) s
              = (s1, Raise e)) by now apply bind_raise.
  unfold bind at 1. rewrite (try_except_raise _ _ _ _ _ E).
  destruct (is_TimeoutException e); [reflexivity|].
  destruct (is_WebDriverException e); reflexivity.
Qed.

End SingleLinkOutcomes.

Lemma failed_load_witness :
  @perform (scripted stalled) _ (Get file_a) (start stalled [])
  = (stalled_loaded, Raise (TimeoutException (lit "timeout: Timed out receiving message")))
  /\ @process_link (scripted stalled) file_a main_tab (start stalled [])
     = (stalled_loaded, Ok (false, lit "Page load timed out")).
Proof.
  assert (H : @perform (scripted stalled) _ (Get file_a) (start stalled [])
              = (stalled_loaded,
                 Raise (TimeoutException (lit "timeout: Timed out receiving message"))))
    by (vm_compute; reflexivity).
  exact (conj H (@failed_load_is_terminal (scripted stalled) file_a main_tab
                   (start stalled []) stalled_loaded _ H)).
Defined.

Section ClickOnce.
Context {R : Runtime}.

Lemma loads_app (a b : list entry) : loads (a ++ b) = loads a ++ loads b.
Proof. apply flat_map_app. Qed.

Lemma clicks_app (a b : list entry) : clicks (a ++ b) = clicks a + clicks b.
Proof. unfold clicks. now rewrite filter_app, length_app. Qed.

Lemma passive_facts (tr : list entry) :
  Forall (fun e => passive e = true) tr ->
  loads tr = [] /\ clicks tr = 0 /\ existsb clicked_ok tr = false.
Proof.
  induction 1 as [|e tr He _ (IH1 & IH2 & IH3)]; [repeat split|].
  unfold passive in He. apply andb_true_iff in He as [Hc Hl].
  apply negb_true_iff in Hc.
  assert (Hk : clicked_ok e = false).
  { destruct e as [T c r|lvl f a|t|p t]; try reflexivity.
    destruct c; try reflexivity. discriminate. }
  unfold clicks in *. cbn. rewrite Hc, Hk, IH3.
  destruct (loaded e); [discriminate|]. cbn. repeat split; assumption.
Qed.

Lemma window_entry_passive (e : entry) : window_entry e = true -> passive e = true.
Proof.
  destruct e as [T c r|lvl f a|t|p t]; try discriminate.
  - destruct c; try discriminate; reflexivity.
  - reflexivity.
Qed.

Ltac segment H E :=
  let n := fresh "n" in
  let T := fresh "T" in
  let F := fresh "F" in
  destruct (emits_run (fun e => passive e = true) _ H E) as (n & T & F);
  let L := fresh "L" in
  let C := fresh "C" in
  let K := fresh "K" in
  destruct (passive_facts n F) as (L & C & K); clear F.

Ltac settle := unfold ret, raise; cbv beta iota; cbn [fst snd].

Ltac trace_chain :=
  repeat match goal with
         | H : trace ?x = _ |- context [trace ?x] => rewrite H
         end;
  rewrite <- ?app_assoc; reflexivity.

Ltac tally :=
  rewrite ?loads_app, ?clicks_app, ?existsb_app;
  repeat match goal with
         | H : loads _ = [] |- _ => rewrite H; clear H
         | H : clicks _ = 0 |- _ => rewrite H; clear H
         | H : existsb clicked_ok _ = false |- _ => rewrite H; clear H
         end;
  cbn [loads clicks flat_map filter existsb loaded is_click clicked_ok
       length app orb Nat.add fst snd].

Ltac finish_outcome :=
  settle; eexists; (split; [trace_chain|]); tally;
  (split; [reflexivity|]); (split; [lia|]);
  let ok := fresh "ok" in
  let reason := fresh "reason" in
  let H := fresh "H" in
  intros ok reason H; inversion H; subst; split; try reflexivity; try discriminate.

Lemma process_link_profile (url : str) (main_handle : handle) (s : state) :
  exists new,
    trace (fst (process_link url main_handle s)) = trace s ++ new
    /\ loads new = [url]
    /\ clicks new <= 1
    /\ (forall ok reason,
           snd (process_link url main_handle s) = Ok (ok, reason) ->
           ok = existsb clicked_ok new /\ (ok = true -> reason = lit "OK")).
Proof.
  assert (Hreap : emits (fun e => passive e = true) (close_popup_tabs main_handle))
    by (apply close_popup_tabs_emits; exact window_entry_passive).
  assert (Hinv : emits (fun e => passive e = true) is_page_invalid)
    by (apply any_phrase_emits; reflexivity).
  assert (Hwait : emits (fun e => passive e = true) await_download_button)
    by (apply await_download_button_emits; reflexivity).
  assert (Hfind : emits (fun e => passive e = true) find_download_button)
    by (apply find_among_emits; reflexivity).
  assert (Hsleep : emits (fun e => passive e = true) (perform (Sleep 1500)))
    by (apply emits_perform; reflexivity).
  unfold process_link.
  destruct (perform (Get url) s) as [s1 r1] eqn:E1.
  pose proof (perform_run _ _ _ _ E1) as T1.
  destruct r1 as [[]|e].
  2:{ (* the load failed *)
    assert (E : bind (perform (Get url)) (fun _ => ret (@None (bool * str))) s
                = (s1, Raise e)) by now apply bind_raise.
    match goal with
    | |- context [try_except ?m ?h] =>
        pose proof (try_except_raise m h _ _ _ E) as Et
    end.
    destruct (is_TimeoutException e) eqn:Ht.
    - erewrite bind_ok by (rewrite Et, Ht; reflexivity). finish_outcome.
    - destruct (is_WebDriverException e) eqn:Hw.
      + erewrite bind_ok by (rewrite Et, Ht, Hw; reflexivity). finish_outcome.
      + erewrite bind_raise by (rewrite Et, Ht, Hw; reflexivity). finish_outcome. }
  erewrite bind_ok
    by (apply try_except_ok; erewrite bind_ok by exact E1; reflexivity).
  cbv beta iota.
  destruct (close_popup_tabs main_handle s1) as [s2 [[]|e]] eqn:E2; segment Hreap E2.
  2:{ erewrite bind_raise by exact E2.
      settle; eexists; split; [trace_chain|]; tally.
      split; [reflexivity|]. split; [lia|]. intros ok reason H; discriminate. }
  erewrite bind_ok by exact E2.
  destruct (is_page_invalid s2) as [s3 [invalid|e]] eqn:E3; segment Hinv E3.
  2:{ erewrite bind_raise by exact E3.
      settle; eexists; split; [trace_chain|]; tally.
      split; [reflexivity|]. split; [lia|]. intros ok reason H; discriminate. }
  erewrite bind_ok by exact E3.
  destruct invalid.
  { settle; eexists; split; [trace_chain|]; tally.
    split; [reflexivity|]. split; [lia|].
    intros ok reason H; inversion H; subst; split; try reflexivity; try discriminate. }
  destruct (await_download_button s3) as [s4 [[]|e]] eqn:E4; segment Hwait E4.
  2:{ erewrite bind_raise by exact E4.
      settle; eexists; split; [trace_chain|]; tally.
      split; [reflexivity|]. split; [lia|]. intros ok reason H; discriminate. }
  erewrite bind_ok by exact E4.
  destruct (find_download_button s4) as [s5 [[b|]|e]] eqn:E5; segment Hfind E5.
  3:{ erewrite bind_raise by exact E5.
      settle; eexists; split; [trace_chain|]; tally.
      split; [reflexivity|]. split; [lia|]. intros ok reason H; discriminate. }
  2:{ erewrite bind_ok by exact E5.
      settle; eexists; split; [trace_chain|]; tally.
      split; [reflexivity|]. split; [lia|].
      intros ok reason H; inversion H; subst; split; try reflexivity; try discriminate. }
  erewrite bind_ok by exact E5. cbv beta iota.
  destruct (perform (Click b) s5) as [s6 r6] eqn:E6.
  pose proof (perform_run _ _ _ _ E6) as T6.
  destruct r6 as [[]|e].
  2:{ (* the click failed *)
    assert (E : bind (perform (Click b)) (fun _ => ret (@None (bool * str))) s5
                = (s6, Raise e)) by now apply bind_raise.
    match goal with
    | |- context [try_except ?m ?h] =>
        pose proof (try_except_raise m h _ _ _ E) as Et
    end.
    destruct (is_Exception e) eqn:Hx.
    - erewrite bind_ok by (rewrite Et, Hx; reflexivity). finish_outcome.
    - erewrite bind_raise by (rewrite Et, Hx; reflexivity). finish_outcome. }
  erewrite bind_ok
    by (apply try_except_ok; erewrite bind_ok by exact E6; reflexivity).
  cbv beta iota.
  destruct (perform (Sleep 1500) s6) as [s7 [[]|e]] eqn:E7; segment Hsleep E7.
  2:{ erewrite bind_raise by exact E7.
      settle; eexists; split; [trace_chain|]; tally.
      split; [reflexivity|]. split; [lia|]. intros ok reason H; discriminate. }
  erewrite bind_ok by exact E7.
  destruct (close_popup_tabs main_handle s7) as [s8 [[]|e]] eqn:E8; segment Hreap E8.
  2:{ erewrite bind_raise by exact E8.
      settle; eexists; split; [trace_chain|]; tally.
      split; [reflexivity|]. split; [lia|]. intros ok reason H; discriminate. }
  erewrite bind_ok by exact E8.
  settle; eexists; split; [trace_chain|]; tally.
  split; [reflexivity|]. split; [lia|].
  intros ok reason H; inversion H; subst; split; reflexivity.
Qed.

(** X2.  [process_link] loads the page of its link once, clicks at most
    once, and reports success exactly when a click went through: the flag of
    a returned outcome is [True] iff the trace of the call holds a click the
    driver answered without error, and the reason is then "OK". *)
Theorem process_link_clicks_once (url : str) (main_handle : handle) (s : state) :
  exists new,
    trace (fst (process_link url main_handle s)) = trace s ++ new
    /\ loads new = [url]
    /\ clicks new <= 1
    /\ (forall ok reason,
           snd (process_link url main_handle s) = Ok (ok, reason) ->
           ok = existsb clicked_ok new /\ (ok = true -> reason = lit "OK")).
Proof. apply process_link_profile. Qed.

End ClickOnce.

(** ** More on the per-link loop *)

Section LoopOrder.
Context {R : Runtime}.

Lemma subsequence_in {A : Type} (a l : list A) (x : A) :
  subsequence a l -> In x a -> In x l.
Proof.
  induction 1 as [l|y a l _ IH|y a l _ IH]; simpl; intros H.
  - destruct H.
  - destruct H as [H|H]; auto.
  - auto.
Qed.

Lemma subsequence_sorted (a l : list (nat * str)) :
  subsequence a l ->
  StronglySorted lt (map fst l) -> StronglySorted lt (map fst a).
Proof.
  induction 1 as [l|y a l S IH|y a l S IH]; simpl; intros H.
  - constructor.
  - inversion H as [|? ? Hs Hf]; subst. constructor; [now apply IH|].
    rewrite Forall_forall in *. intros n Hn.
    apply in_map_iff in Hn as [p [<- Hp]].
    apply Hf. apply in_map. now apply (subsequence_in a l).
  - inversion H; subst. now apply IH.
Qed.

Lemma acknowledge_passive (outcome : bool * str) :
  emits (fun e => passive e = true) (acknowledge outcome).
Proof. unfold acknowledge. repeat emits_step; reflexivity. Qed.

(** What the loop leaves behind, by induction on the links: the addresses
    loaded are those of the first [k] links, of which all but possibly the
    last were acknowledged; the failures added are some of the links gone
    through, in order. *)
Lemma for_links_order (main_handle : handle) (total : nat) (links : list (nat * str)) :
  forall (idx : nat) (c : counters) (s : state),
  exists new k extra,
    trace (fst (for_links main_handle total idx links c s)) = trace s ++ new
    /\ loads new = firstn k (map snd links)
    /\ k <= length links
    /\ acknowledgments new <= k <= acknowledgments new + 1
    /\ (snd (snd (for_links main_handle total idx links c s)) = Ok tt ->
        k = length links /\ acknowledgments new = k)
    /\ failed_links (fst (snd (for_links main_handle total idx links c s)))
       = failed_links c ++ extra
    /\ subsequence (map failed_link extra) links.
Proof.
  induction links as [|[line_no url] rest IH]; intros idx c s.
  - exists [], 0, []. cbn. rewrite !app_nil_r.
    split; [reflexivity|]. split; [reflexivity|]. split; [lia|]. split; [lia|].
    split; [auto|]. split; [reflexivity | constructor].
  - cbn [for_links].
    set (m := bind _ _).
    assert (Hm : forall st, exists new,
                 trace (fst (m st)) = trace st ++ new
                 /\ loads new = [url] /\ acknowledgments new = 0).
    { intros st. subst m. unfold bind at 1. cbn [print].
      unfold bind at 1. cbn [log].
      match goal with |- context [process_link url main_handle ?x] =>
        destruct (process_link_profile url main_handle x) as (n & T & L & _);
        destruct (process_link_emits url main_handle x) as (n' & T' & F')
      end.
      rewrite T in T'. apply app_inv_head in T'. subst n'.
      eexists. split; [rewrite T; cbn [record trace]; rewrite <- !app_assoc; reflexivity|].
      rewrite !loads_app, !acknowledgments_app, L. split; [reflexivity|].
      rewrite (acknowledgments_none n); [reflexivity|].
      eapply Forall_impl; [|exact F']. intros e. apply link_entry_not_acknowledgment. }
    destruct (Hm s) as (n1 & T1 & L1 & A1). clearbody m.
    destruct (m s) as [s1 [outcome|e]]; cbn [fst snd] in *.
    + destruct (acknowledge_trace outcome [] s1) as (n2 & T2 & A2 & _).
      destruct (acknowledge_passive outcome s1) as (n2' & T2' & F2).
      rewrite T2 in T2'. apply app_inv_head in T2'. subst n2'.
      destruct (passive_facts n2 F2) as (L2 & _ & _).
      destruct (acknowledge outcome s1) as [s2 [[]|e2]]; cbn [fst snd] in *.
      * destruct (IH (S idx) (record_outcome line_no url outcome c) s2)
          as (n3 & k & extra & T3 & L3 & B3 & K3 & O3 & X3 & S3).
        exists (n1 ++ n2 ++ n3), (S k).
        exists (if fst outcome then extra else (line_no, url, snd outcome) :: extra).
        rewrite T3, T2, T1, X3, !loads_app, !acknowledgments_app, L1, L2, L3, A1, A2.
        rewrite <- !app_assoc. cbn [app map snd firstn length].
        split; [reflexivity|]. split; [reflexivity|]. split; [lia|]. split; [lia|].
        split; [intros H; specialize (O3 H); lia|]. split.
        -- unfold record_outcome. destruct (fst outcome); cbn [failed_links].
           ++ reflexivity.
           ++ now rewrite <- app_assoc.
        -- destruct (fst outcome); cbn [map].
           ++ now constructor.
           ++ change (failed_link (line_no, url, snd outcome)) with (line_no, url).
              now constructor.
      * exists (n1 ++ n2), 1.
        exists (if fst outcome then [] else [(line_no, url, snd outcome)]).
        rewrite T2, T1, !loads_app, !acknowledgments_app, L1, L2, A1, A2.
        rewrite <- !app_assoc. cbn [app map snd firstn length].
        split; [reflexivity|]. split; [reflexivity|]. split; [lia|]. split; [lia|].
        split; [discriminate|]. split.
        -- unfold record_outcome. destruct (fst outcome); cbn [failed_links].
           ++ now rewrite app_nil_r.
           ++ reflexivity.
        -- destruct (fst outcome); cbn [map].
           ++ constructor.
           ++ change (failed_link (line_no, url, snd outcome)) with (line_no, url).
              constructor. constructor.
    + exists n1, 1, []. rewrite T1, L1, A1, app_nil_r.
      cbn [app map snd firstn length].
      split; [reflexivity|]. split; [reflexivity|]. split; [lia|]. split; [lia|].
      split; [discriminate|]. split; [reflexivity | constructor].
Qed.

(** X3.  The failures the loop records are links of the file, each at most
    once and in file order, whether the loop runs to its end or an exception
    cuts it short: the line numbers of the failure records increase. *)
Theorem failures_in_file_order (main_handle : handle) (total idx : nat)
    (raw_lines : list str) (s : state) :
  subsequence
    (map failed_link
       (failed_links
          (fst (snd (for_links main_handle total idx (links_of raw_lines)
                       {| success_count := 0; failed_links := [] |} s)))))
    (links_of raw_lines)
  /\ StronglySorted lt
       (map fst
          (map failed_link
             (failed_links
                (fst (snd (for_links main_handle total idx (links_of raw_lines)
                             {| success_count := 0; failed_links := [] |} s)))))).
Proof.
  destruct (for_links_order main_handle total (links_of raw_lines) idx
              {| success_count := 0; failed_links := [] |} s)
    as (new & k & extra & _ & _ & _ & _ & _ & X & S).
  rewrite X. cbn [failed_links app].
  split; [exact S|].
  apply (subsequence_sorted _ _ S). apply links_from_sorted.
Qed.

(** X4.  The loop loads the pages of the links in file order, each once,
    with no link skipped: the addresses loaded are those of the first [k]
    links, where [k] is the number of links acknowledged, or one more when
    an exception ended the loop; a loop that runs to its end has loaded the
    page of every link. *)
Theorem pages_loaded_in_file_order (main_handle : handle) (total idx : nat)
    (links : list (nat * str)) (c : counters) (s : state) :
  exists new k,
    trace (fst (for_links main_handle total idx links c s)) = trace s ++ new
    /\ loads new = firstn k (map snd links)
    /\ acknowledgments new <= k <= acknowledgments new + 1
    /\ (snd (snd (for_links main_handle total idx links c s)) = Ok tt ->
        loads new = map snd links).
Proof.
  destruct (for_links_order main_handle total links idx c s)
    as (new & k & extra & T & L & B & K & O & _).
  exists new, k. split; [exact T|]. split; [exact L|]. split; [exact K|].
  intros H. destruct (O H) as [-> _]. rewrite L.
  rewrite <- (length_map snd links). apply firstn_all.
Qed.

End LoopOrder.

(** ** The summary of a run *)

Section Summary.
Context {R : Runtime}.

Lemma bind_inv {A B : Type} (m : M A) (k : A -> M B) (s s' : state) (b : B) :
  bind m k s = (s', Ok b) ->
  exists s1 a, m s = (s1, Ok a) /\ k a s1 = (s', Ok b).
Proof.
  unfold bind. destruct (m s) as [s1 [a|e]]; intros H.
  - now exists s1, a.
  - discriminate.
Qed.

Lemma run_links_counters (main_handle : handle) (total : nat)
    (links : list (nat * str)) (s s' : state) (c : counters) :
  run_links main_handle total links s = (s', Ok c) ->
  c = fst (snd (for_links main_handle total 1 links
                  {| success_count := 0; failed_links := [] |} s)).
Proof.
  unfold run_links.
  destruct (for_links main_handle total 1 links _ s) as [s1 [c1 [[]|e]]]; cbn [fst snd].
  - intros H. now injection H as _ <-.
  - destruct (is_KeyboardInterrupt e); [|discriminate].
    intros H. now injection H as _ <-.
Qed.

Ltac find_entry :=
  repeat match goal with
         | |- In _ (_ ++ [_]) =>
             first [ apply in_or_app; right; left; reflexivity
                   | apply in_or_app; left ]
         | |- In _ (_ ++ _) => apply in_or_app; left
         end.

(** X5.  When [main] returns, the file read had at least one link and the
    browser has been quit, and the figures of the summary agree: the total is
    the number of non-blank lines of the file read, the links processed are
    the successes plus the failures and no more than the total, and the
    failures listed are links of the file, in file order. *)
Theorem summary_is_consistent (args : Namespace) (s s' : state) (sm : summary) :
  main args s = (s', Ok sm) ->
  exists path raw_lines,
    In (Called (ReadLines path) (Ok raw_lines)) (trace s')
    /\ In (Called QuitDriver (Ok tt)) (trace s')
    /\ total_links sm = non_blank_lines raw_lines
    /\ 0 < total_links sm
    /\ processed sm = successful sm + failed_count sm
    /\ processed sm <= total_links sm
    /\ failed_count sm = length (failures sm)
    /\ subsequence (map failed_link (failures sm)) (links_of raw_lines).
Proof.
  intros H. unfold main in H.
  apply bind_inv in H as (s0 & [] & _ & H).
  apply bind_inv in H as (s1 & path & _ & H).
  apply bind_inv in H as (s2 & is_file & _ & H).
  destruct is_file; cbn [negb] in H.
  2:{ apply bind_inv in H as (? & ? & _ & H). discriminate H. }
  apply bind_inv in H as (s3 & raw_lines & H3 & H). cbv zeta in H.
  pose proof (perform_run _ _ _ _ H3) as T3.
  do 8 (erewrite bind_ok in H by reflexivity).
  destruct (length (links_of raw_lines) =? 0) eqn:Z.
  { apply bind_inv in H as (? & ? & _ & H). discriminate H. }
  apply Nat.eqb_neq in Z.
  match type of H with session _ _ ?x = _ => set (s4 := x) in H end.
  assert (T4 : exists n, trace s4 = trace s3 ++ n).
  { subst s4. eexists. cbn [record trace]. rewrite <- !app_assoc. reflexivity. }
  clearbody s4. destruct T4 as [n4 T4].
  unfold session in H.
  apply bind_inv in H as (s5 & seconds & H5 & H).
  injection H5 as <- _.
  apply bind_inv in H as (s6 & [] & H6 & H).
  pose proof (perform_run _ _ _ _ H6) as T6.
  apply bind_inv in H as (s7 & main_handle & H7 & H).
  pose proof (perform_run _ _ _ _ H7) as T7.
  apply bind_inv in H as (s8 & c & H8 & H).
  destruct (emits_run _ _ (run_links_emits main_handle _ _) H8) as (n8 & T8 & _).
  apply run_links_counters in H8.
  do 5 (erewrite bind_ok in H by reflexivity).
  match type of H with bind shutdown_prompt _ ?x = _ => set (s9 := x) in H end.
  assert (T9 : exists n, trace s9 = trace s8 ++ n).
  { subst s9. eexists. cbn [record trace]. rewrite <- !app_assoc. reflexivity. }
  clearbody s9. destruct T9 as [n9 T9].
  apply bind_inv in H as (s10 & [] & H10 & H).
  destruct (emits_run _ _ shutdown_prompt_emits H10) as (n10 & T10 & _).
  apply bind_inv in H as (s11 & [] & H11 & H).
  pose proof (perform_run _ _ _ _ H11) as T11.
  do 2 (erewrite bind_ok in H by reflexivity).
  injection H as <- <-.
  destruct (for_links_counts main_handle (length (links_of raw_lines))
              (links_of raw_lines) 1 {| success_count := 0; failed_links := [] |} s7)
    as (new & _ & O & B & _).
  destruct (for_links_order main_handle (length (links_of raw_lines))
              (links_of raw_lines) 1 {| success_count := 0; failed_links := [] |} s7)
    as (new' & k & extra & _ & _ & _ & _ & _ & X & S).
  rewrite <- H8 in O, X. unfold outcomes in O. cbn [success_count failed_links length app] in O, X.
  exists path, raw_lines. cbn [total_links processed successful failed_count failures].
  split.
  { cbn [record trace]. rewrite T11, T10, T9, T8, T7, T6, T4, T3.
    find_entry. }
  split.
  { cbn [record trace]. rewrite T11. find_entry. }
  rewrite links_of_length in *.
  split; [reflexivity|]. split; [lia|]. split; [reflexivity|]. split; [lia|].
  split; [reflexivity|]. rewrite X. exact S.
Qed.

End Summary.

Lemma summary_witness :
  @main (scripted deleted) links_txt (start deleted deleted_keys)
  = (deleted_done,
     Ok {| total_links := 2; processed := 2; successful := 0; failed_count := 2;
           failures := [ (1, file_a, MSG_INVALID);
                         (3, lit "https://www.mediafire.com/file/b", MSG_INVALID) ] |})
  /\ exists path raw_lines,
       In (Called (ReadLines path) (Ok raw_lines)) (trace deleted_done)
       /\ In (Called QuitDriver (Ok tt)) (trace deleted_done)
       /\ 2 = non_blank_lines raw_lines
       /\ 0 < 2
       /\ 2 = 0 + 2
       /\ 2 <= 2
       /\ 2 = length [ (1, file_a, MSG_INVALID);
                       (3, lit "https://www.mediafire.com/file/b", MSG_INVALID) ]
       /\ subsequence
            (map failed_link [ (1, file_a, MSG_INVALID);
                               (3, lit "https://www.mediafire.com/file/b", MSG_INVALID) ])
            (links_of raw_lines).
Proof.
  assert (H : @main (scripted deleted) links_txt (start deleted deleted_keys)
              = (deleted_done,
                 Ok {| total_links := 2; processed := 2; successful := 0;
                       failed_count := 2;
                       failures := [ (1, file_a, MSG_INVALID);
                                     (3, lit "https://www.mediafire.com/file/b",
                                      MSG_INVALID) ] |}))
    by (vm_compute; reflexivity).
  exact (conj H (@summary_is_consistent (scripted deleted) links_txt
                   (start deleted deleted_keys) deleted_done _ H)).
Defined.

(** ** Progress of the shutdown prompt *)

Section ShutdownProgress.
Context {R : Runtime}.

Lemma shutdown_loop_reads (waiting_lines : list str) :
  forall (fuel : nat) (s : state) (tail : list key),
    stdin s = map Line waiting_lines ++ tail ->
    Forall (fun l => affirmative l = false) waiting_lines ->
    length waiting_lines < fuel ->
    exists s1 new,
      shutdown_loop fuel s
      = shutdown_loop (fuel - length waiting_lines) s1
      /\ stdin s1 = tail /\ world s1 = world s
      /\ trace s1 = trace s ++ new
      /\ length new = 2 * length waiting_lines.
Proof.
  induction waiting_lines as [|l rest IH]; intros fuel s tail Hin Hno Hfuel.
  - exists s, []. cbn. rewrite Nat.sub_0_r, app_nil_r. auto.
  - destruct fuel as [|n]; [cbn in Hfuel; lia|].
    inversion Hno as [|? ? Hl Hrest]; subst.
    cbn [shutdown_loop].
    assert (I : input PROMPT_SHUTDOWN s
                = (record (Prompted PROMPT_SHUTDOWN (Ok l))
                     {| world := world s; stdin := map Line rest ++ tail;
                        PAGE_TIMEOUT := PAGE_TIMEOUT s; trace := trace s |}, Ok l)).
    { unfold input. rewrite Hin. reflexivity. }
    erewrite bind_ok by exact I.
    unfold affirmative in Hl. rewrite Hl.
    match goal with
    | |- context [bind (if ?c then print ?a else print ?b) _] =>
        set (text := if c then a else b);
        replace (if c then print a else print b) with (print text)
          by (subst text; destruct c; reflexivity)
    end.
    erewrite bind_ok by reflexivity.
    match goal with |- context [shutdown_loop n ?x] =>
      destruct (IH n x tail) as (s1 & new & E & Hs & Hw & Ht & Hlen)
    end; [reflexivity | exact Hrest | cbn in Hfuel; lia |].
    exists s1, (Prompted PROMPT_SHUTDOWN (Ok l) :: Printed text :: new).
    split; [exact E|]. split; [exact Hs|]. split; [exact Hw|]. split.
    + rewrite Ht. cbn [record trace]. now rewrite <- !app_assoc.
    + cbn [length]. lia.
Qed.

(** X6.  The shutdown prompt reads the console line by line.  When the
    operator types lines that are not affirmative and then an affirmative
    one, the wait ends there: the prompt returns, the lines after it are left
    unread and the browser is as it was.  When the input ends before any
    affirmative line, the prompt raises [EOFError]. *)
Theorem shutdown_prompt_reads_until_yes (s : state) (waiting_lines : list str) :
  Forall (fun l => affirmative l = false) waiting_lines ->
  (forall yes unread,
      stdin s = map Line waiting_lines ++ Line yes :: unread ->
      affirmative yes = true ->
      exists s',
        shutdown_prompt s = (s', Ok tt)
        /\ stdin s' = unread /\ world s' = world s
        /\ length (trace s') = length (trace s) + 2 * length waiting_lines + 1)
  /\ (stdin s = map Line waiting_lines ->
      exists s',
        shutdown_prompt s = (s', Raise EOFError)
        /\ stdin s' = [] /\ world s' = world s).
Proof.
  intros Hno. split.
  - intros yes unread Hin Hyes. unfold shutdown_prompt.
    destruct (shutdown_loop_reads waiting_lines (S (length (stdin s))) s
                (Line yes :: unread) Hin Hno)
      as (s1 & new & E & Hs & Hw & Ht & Hlen).
    { rewrite Hin, length_app, length_map. cbn [length]. lia. }
    rewrite E.
    destruct (S (length (stdin s)) - length waiting_lines) as [|n] eqn:F.
    { rewrite Hin, length_app, length_map in F. cbn [length] in F. lia. }
    cbn [shutdown_loop]. unfold bind, input. rewrite Hs.
    unfold affirmative in Hyes. rewrite Hyes.
    eexists. split; [reflexivity|]. cbn [record stdin world trace tl].
    split; [reflexivity|]. split; [exact Hw|].
    rewrite Ht, !length_app, Hlen. cbn [length]. lia.
  - intros Hin. unfold shutdown_prompt.
    destruct (shutdown_loop_reads waiting_lines (S (length (stdin s))) s [])
      as (s1 & new & E & Hs & Hw & Ht & Hlen);
      [now rewrite app_nil_r | exact Hno | rewrite Hin, length_map; lia |].
    rewrite E.
    destruct (S (length (stdin s)) - length waiting_lines) as [|n] eqn:F.
    { rewrite Hin, length_map in F. lia. }
    cbn [shutdown_loop]. unfold bind, input. rewrite Hs.
    eexists. split; [reflexivity|]. cbn [record stdin world tl].
    split; [reflexivity | exact Hw].
Qed.

End ShutdownProgress.

Lemma shutdown_prompt_witness :
  Forall (fun l => @affirmative (scripted healthy) l = false) [[]; lit "n"; lit "yes"]
  /\ exists s',
       @shutdown_prompt (scripted healthy)
         (start healthy [Line []; Line (lit "n"); Line (lit "yes"); Line (lit " Y ");
                         Line (lit "later")])
       = (s', Ok tt)
       /\ stdin s' = [Line (lit "later")]
       /\ world s' = tt
       /\ length (trace s') = 0 + 2 * 3 + 1.
Proof.
  assert (H : Forall (fun l => @affirmative (scripted healthy) l = false)
                [[]; lit "n"; lit "yes"])
    by (repeat constructor).
  split; [exact H|].
  exact (proj1 (@shutdown_prompt_reads_until_yes (scripted healthy)
                  (start healthy [Line []; Line (lit "n"); Line (lit "yes");
                                  Line (lit " Y "); Line (lit "later")])
                  [[]; lit "n"; lit "yes"] H)
           (lit " Y ") [Line (lit "later")] eq_refl eq_refl).
Defined.

(** ** The popup helper on a browser that keeps its windows *)

Section Reaping.
Context {R : Runtime}.

(** The windows open in a world and the one with the focus. *)
Variable windows : World -> list handle.
Variable focus : World -> option handle.

(** The driver lists the open windows, switches to an open window, and
    closes the window that has the focus. *)
Hypothesis listing :
  forall w, answer WindowHandles w = (w, Ok (windows w)).
Hypothesis switching :
  forall w h, In h (windows w) ->
    exists w', answer (SwitchToWindow h) w = (w', Ok tt)
               /\ windows w' = windows w /\ focus w' = Some h.
Hypothesis closing :
  forall w h, focus w = Some h ->
    exists w', answer CloseWindow w = (w', Ok tt)
               /\ windows w' = without_window h (windows w).

Lemma in_without_window (x h : handle) (ws : list handle) :
  In x (without_window h ws) <-> In x ws /\ x <> h.
Proof.
  unfold without_window. rewrite filter_In, negb_true_iff, eqb_neq. tauto.
Qed.

Lemma close_each_leaves (keep_handle : handle) (handles : list handle) :
  forall s,
    NoDup handles ->
    (forall h, In h handles -> In h (windows (world s))) ->
    exists s',
      close_each keep_handle handles s = (s', Ok tt)
      /\ forall x, In x (windows (world s')) <->
                   In x (windows (world s))
                   /\ (x = keep_handle \/ ~ In x handles).
Proof.
  induction handles as [|h rest IH]; intros s ND Hopen.
  - exists s. split; [reflexivity|]. intros x. simpl. tauto.
  - inversion ND as [|? ? Hnotin ND']; subst.
    cbn [close_each].
    destruct (PyStr.eqb h keep_handle) eqn:K.
    + apply eqb_eq in K. subst h.
      erewrite bind_ok by reflexivity.
      destruct (IH s ND') as (s' & E & W).
      { intros x Hx. apply Hopen. now right. }
      exists s'. split; [exact E|]. intros x. rewrite W. simpl.
      split; intros [Hx Hc]; (split; [exact Hx|]).
      * destruct Hc as [->|Hc]; [now left|].
        destruct (PyStr.eqb x keep_handle) eqn:Q.
        -- apply eqb_eq in Q. now left.
        -- apply eqb_neq in Q. right. intros [F|F]; [congruence | contradiction].
      * destruct Hc as [->|Hc]; [now left|]. right. tauto.
    + apply eqb_neq in K.
      destruct (switching (world s) h) as (w1 & A1 & W1 & F1); [apply Hopen; now left|].
      destruct (closing w1 h F1) as (w2 & A2 & W2).
      match goal with |- context [bind ?m _ s] =>
        assert (E1 : exists s2, m s = (s2, Ok tt) /\ world s2 = w2) end.
      { unfold pass_WebDriverException, try_except, bind, perform, log.
        rewrite A1. cbn [world record]. rewrite A2. cbn [world record].
        eexists. split; reflexivity. }
      destruct E1 as (s2 & E1 & Hw2).
      erewrite bind_ok by exact E1.
      destruct (IH s2 ND') as (s' & E & W).
      { intros x Hx. rewrite Hw2, W2, W1. apply in_without_window. split.
        - apply Hopen. now right.
        - intros ->. contradiction. }
      exists s'. split; [exact E|]. intros x.
      rewrite W, Hw2, W2, W1, in_without_window. simpl.
      split.
      * intros [[Hx Hne] Hc]. split; [exact Hx|].
        destruct Hc as [->|Hc]; [now left|]. right.
        intros [F|F]; [congruence | contradiction].
      * intros [Hx Hc]. destruct Hc as [->|Hc].
        -- repeat split; auto.
        -- repeat split; auto; try (intros ->; apply Hc; now left).
Qed.

(** X7.  On a browser that lists its open windows, switches to any of
    them and closes the one that has the focus, [close_popup_tabs] leaves
    exactly the window to keep open, with the focus on it. *)
Theorem close_popup_tabs_leaves_main (keep_handle : handle) (s : state) :
  NoDup (windows (world s)) ->
  In keep_handle (windows (world s)) ->
  exists s',
    close_popup_tabs keep_handle s = (s', Ok tt)
    /\ (forall x, In x (windows (world s')) <-> x = keep_handle)
    /\ focus (world s') = Some keep_handle.
Proof.
  intros ND Hkeep. unfold close_popup_tabs.
  assert (E0 : exists s0, perform WindowHandles s = (s0, Ok (windows (world s)))
                          /\ world s0 = world s).
  { unfold perform. rewrite listing. eexists. split; reflexivity. }
  destruct E0 as (s0 & E0 & W0).
  erewrite bind_ok by exact E0.
  destruct (close_each_leaves keep_handle (windows (world s)) s0 ND) as (s1 & E1 & W1).
  { intros h Hh. now rewrite W0. }
  erewrite bind_ok by exact E1.
  assert (K1 : In keep_handle (windows (world s1))).
  { apply W1. rewrite W0. split; [exact Hkeep | now left]. }
  destruct (switching (world s1) keep_handle K1) as (w2 & A2 & W2 & F2).
  unfold pass_WebDriverException, try_except, perform. rewrite A2.
  eexists. split; [reflexivity|]. cbn [world record].
  split; [|exact F2].
  intros x. rewrite W2, W1, W0. split.
  - intros [Hx [->|Hc]]; [reflexivity | contradiction].
  - intros ->. split; [exact Hkeep | now left].
Qed.

End Reaping.

Lemma windowed_switching (w : @World windowed) (h : handle) :
  In h (fst w) ->
  exists w', @answer windowed _ (SwitchToWindow h) w = (w', Ok tt)
             /\ fst w' = fst w /\ snd w' = Some h.
Proof.
  intros H. cbn. unfold has_window.
  assert (E : existsb (PyStr.eqb h) (fst w) = true).
  { apply existsb_exists. exists h. split; [exact H | now apply eqb_eq]. }
  rewrite E. eexists. repeat split.
Defined.

Lemma windowed_closing (w : @World windowed) (h : handle) :
  snd w = Some h ->
  exists w', @answer windowed _ CloseWindow w = (w', Ok tt)
             /\ fst w' = without_window h (fst w).
Proof. intros H. cbn. rewrite H. eexists. split; reflexivity. Defined.

Lemma close_popup_tabs_leaves_main_witness :
  NoDup [main_tab; ad_tab_1; ad_tab_2]
  /\ In main_tab [main_tab; ad_tab_1; ad_tab_2]
  /\ exists s',
       @close_popup_tabs windowed main_tab with_popups = (s', Ok tt)
       /\ (forall x, In x (fst (world s')) <-> x = main_tab)
       /\ snd (world s') = Some main_tab.
Proof.
  assert (ND : NoDup [main_tab; ad_tab_1; ad_tab_2]).
  { repeat constructor; cbv; intuition congruence. }
  assert (I : In main_tab [main_tab; ad_tab_1; ad_tab_2]) by now left.
  split; [exact ND|]. split; [exact I|].
  exact (@close_popup_tabs_leaves_main windowed fst snd (fun w => eq_refl)
           windowed_switching windowed_closing main_tab with_popups ND I).
Defined.

Example popups_closed :
  world (fst (@close_popup_tabs windowed main_tab with_popups))
  = ([main_tab], Some main_tab).
Proof. vm_compute. reflexivity. Qed.

(** ** The life of the browser *)

Section Lifecycle.
Context {R : Runtime}.

Lemma launches_app (a b : list entry) : launches (a ++ b) = launches a + launches b.
Proof. unfold launches. now rewrite filter_app, length_app. Qed.

Lemma quits_app (a b : list entry) : quits (a ++ b) = quits a + quits b.
Proof. unfold quits. now rewrite filter_app, length_app. Qed.

Lemma idle_facts (tr : list entry) :
  Forall (fun e => idle e = true) tr ->
  launches tr = 0 /\ quits tr = 0 /\ existsb quit_ok tr = false
  /\ forall launched rest,
       unlaunched_quit launched (tr ++ rest) = unlaunched_quit launched rest.
Proof.
  induction 1 as [|e tr He _ (IH1 & IH2 & IH3 & IH4)].
  - repeat split.
  - unfold idle in He. apply andb_true_iff in He as [Hl Hq].
    apply negb_true_iff in Hl, Hq.
    assert (Hk : quit_ok e = false /\ launch_ok e = false).
    { destruct e as [T c r|lvl f a|t|p t]; auto. destruct c; auto; discriminate. }
    destruct Hk as [Hk Hlo].
    unfold launches, quits in *. cbn [filter existsb app unlaunched_quit].
    rewrite Hl, Hq, Hk. cbn [orb]. split; [exact IH1|]. split; [exact IH2|].
    split; [exact IH3|]. intros launched rest. rewrite Hlo, orb_false_r. apply IH4.
Qed.

Lemma launched_never_unlaunched (tr : list entry) : unlaunched_quit true tr = false.
Proof. induction tr as [|e tr IH]; cbn; [reflexivity|]. destruct (is_quit e); exact IH. Qed.

Lemma runs_lifecycle_bind {A B : Type} (m : M A) (k : A -> M B) :
  emits (fun e => idle e = true) m ->
  (forall a, runs_lifecycle (k a)) ->
  runs_lifecycle (bind m k).
Proof.
  intros Hm Hk s. unfold bind. destruct (Hm s) as (n1 & E1 & F1).
  destruct (idle_facts n1 F1) as (L1 & Q1 & K1 & U1).
  destruct (m s) as [s1 [a|e]]; cbn [fst snd] in *.
  - destruct (Hk a s1) as (n2 & E2 & L2 & Q2 & U2 & K2).
    exists (n1 ++ n2). rewrite E2, E1, app_assoc. split; [reflexivity|].
    unfold lifecycle. rewrite launches_app, quits_app, existsb_app, U1, L1, Q1, K1.
    repeat split; auto.
  - exists n1. split; [exact E1|]. unfold lifecycle.
    rewrite L1, Q1, K1, <- (app_nil_r n1), U1. repeat split; auto.
Qed.

Lemma runs_launched_bind {A B : Type} (m : M A) (k : A -> M B) :
  emits (fun e => idle e = true) m ->
  (forall a, runs_launched (k a)) ->
  runs_launched (bind m k).
Proof.
  intros Hm Hk s. unfold bind. destruct (Hm s) as (n1 & E1 & F1).
  destruct (idle_facts n1 F1) as (L1 & Q1 & K1 & U1).
  destruct (m s) as [s1 [a|e]]; cbn [fst snd] in *.
  - destruct (Hk a s1) as (n2 & E2 & L2 & Q2 & K2).
    exists (n1 ++ n2). rewrite E2, E1, app_assoc. split; [reflexivity|].
    unfold lifecycle_launched. rewrite launches_app, quits_app, existsb_app, L1, Q1, K1.
    repeat split; auto.
  - exists n1. split; [exact E1|]. unfold lifecycle_launched.
    rewrite L1, Q1, K1. repeat split; auto.
Qed.

(** A computation that never returns and leaves the browser alone. *)
Lemma runs_lifecycle_fails {A : Type} (m : M A) :
  emits (fun e => idle e = true) m ->
  (forall s, is_ok (snd (m s)) = false) ->
  runs_lifecycle m.
Proof.
  intros Hm Hf s. destruct (Hm s) as (n1 & E1 & F1).
  destruct (idle_facts n1 F1) as (L1 & Q1 & K1 & U1).
  exists n1. split; [exact E1|]. unfold lifecycle.
  rewrite L1, Q1, K1, Hf, <- (app_nil_r n1), U1. repeat split; auto.
Qed.

Lemma runs_launched_quit {A : Type} (text fmt : str) (lvl : level) (args : list arg) (a : A) :
  runs_launched
    (bind (perform QuitDriver)
       (fun _ => bind (print text) (fun _ => bind (log lvl fmt args) (fun _ => ret a)))).
Proof.
  intros s. unfold bind, perform, print, log, ret.
  destruct (answer QuitDriver (world s)) as [w [[]|e]]; cbn [fst snd record trace].
  - eexists. split; [rewrite <- !app_assoc; reflexivity|].
    unfold lifecycle_launched, launches, quits. cbn. repeat split; auto.
  - eexists. split; [reflexivity|].
    unfold lifecycle_launched, launches, quits. cbn. repeat split; auto.
Qed.

Lemma runs_lifecycle_launch {A : Type} (seconds : Z) (k : unit -> M A) :
  (forall u, runs_launched (k u)) ->
  runs_lifecycle (bind (perform (BuildDriver seconds)) k).
Proof.
  intros Hk s.
  destruct (perform (BuildDriver seconds) s) as [s1 r1] eqn:E1.
  pose proof (perform_run _ _ _ _ E1) as T1.
  destruct r1 as [[]|e];
    [erewrite bind_ok by exact E1 | erewrite bind_raise by exact E1]; cbn [fst snd].
  - destruct (Hk tt s1) as (n2 & E2 & L2 & Q2 & K2).
    eexists. split; [rewrite E2, T1, <- app_assoc; reflexivity|].
    unfold lifecycle. rewrite launches_app, quits_app, existsb_app, L2, K2.
    cbn. rewrite launched_never_unlaunched. repeat split; auto.
  - exists [Called (BuildDriver seconds) (Raise e)]. split; [exact T1|].
    unfold lifecycle. cbn. repeat split; auto.
Qed.

Lemma quiet_idle (e : entry) : quiet e = true -> idle e = true.
Proof. destruct e as [T c r|lvl f a|t|p t]; try reflexivity. destruct c; easy. Qed.

Lemma session_lifecycle (total : nat) (links : list (nat * str)) :
  runs_lifecycle (session total links).
Proof.
  unfold session.
  apply runs_lifecycle_bind; [emits_step|intros seconds].
  apply runs_lifecycle_launch. intros _.
  apply runs_launched_bind; [emits_step; reflexivity|intros main_handle].
  apply runs_launched_bind.
  { eapply emits_weaken; [|apply run_links_emits].
    intros e L. apply quiet_idle. now apply loop_entry_quiet with (map snd links). }
  intros c.
  do 5 (apply runs_launched_bind; [emits_step; reflexivity|intros _]).
  apply runs_launched_bind.
  { eapply emits_weaken; [|apply shutdown_prompt_emits]. exact quiet_idle. }
  intros _. apply runs_launched_quit.
Qed.

Lemma main_lifecycle (args : Namespace) : runs_lifecycle (main args).
Proof.
  unfold main.
  apply runs_lifecycle_bind; [emits_step|intros _].
  apply runs_lifecycle_bind; [apply resolve_links_file_emits; reflexivity|intros path].
  apply runs_lifecycle_bind; [emits_step; reflexivity|intros is_file].
  destruct (negb is_file).
  - apply runs_lifecycle_fails; [repeat emits_step; reflexivity | reflexivity].
  - apply runs_lifecycle_bind; [emits_step; reflexivity|intros raw_lines].
    cbv zeta.
    repeat (apply runs_lifecycle_bind; [emits_step; reflexivity|intros _]).
    destruct (length (links_of raw_lines) =? 0).
    + apply runs_lifecycle_fails; [repeat emits_step; reflexivity | reflexivity].
    + apply session_lifecycle.
Qed.

(** X8.  In a run of [main] the browser is launched at most once and quit
    at most once, and [driver.quit()] is never called before a launch that
    went through. *)
Theorem browser_launched_and_quit_once (args : Namespace) (s : state) :
  exists new,
    trace (fst (main args s)) = trace s ++ new
    /\ launches new <= 1
    /\ quits new <= 1
    /\ unlaunched_quit false new = false.
Proof.
  destruct (main_lifecycle args s) as (new & E & L & Q & U & _).
  exists new. auto.
Qed.


End Lifecycle.

(** ** The page timeout *)

Section PageTimeout.
Context {R : Runtime}.
Variable seconds : Z.

Lemma honours_ret {A : Type} (a : A) : honours seconds (ret a).
Proof. intros s H. split; [exact H|]. exists []. cbn. now rewrite app_nil_r. Qed.

Lemma honours_raise {A : Type} (e : exn) : honours seconds (@raise _ A e).
Proof. intros s H. split; [exact H|]. exists []. cbn. now rewrite app_nil_r. Qed.

Lemma honours_perform {T : Type} (c : call T) :
  (forall r, timeout_ok seconds (Called c r) = true) -> honours seconds (perform c).
Proof.
  intros Hc s H. unfold perform. destruct (answer c (world s)) as [w r].
  split; [exact H|]. exists [Called c r]. cbn. auto.
Qed.

Lemma honours_print (text : str) : honours seconds (print text).
Proof. intros s H. split; [exact H|]. eexists [_]. cbn. auto. Qed.

Lemma honours_log (lvl : level) (fmt : str) (args : list arg) :
  honours seconds (log lvl fmt args).
Proof. intros s H. split; [exact H|]. eexists [_]. cbn. auto. Qed.

Lemma honours_input (prompt : str) : honours seconds (input prompt).
Proof. intros s H. split; [exact H|]. eexists [_]. cbn. auto. Qed.

Lemma honours_bind {A B : Type} (m : M A) (k : A -> M B) :
  honours seconds m -> (forall a, honours seconds (k a)) -> honours seconds (bind m k).
Proof.
  intros Hm Hk s H. unfold bind. destruct (Hm s H) as (P1 & n1 & E1 & F1).
  destruct (m s) as [s1 [a|e]]; cbn [fst] in *.
  - destruct (Hk a s1 P1) as (P2 & n2 & E2 & F2). split; [exact P2|].
    exists (n1 ++ n2). rewrite E2, E1, app_assoc. split; [reflexivity|].
    now apply Forall_app.
  - split; [exact P1|]. now exists n1.
Qed.

(** Reading the global gives [seconds]. *)
Lemma honours_get {A : Type} (k : Z -> M A) :
  honours seconds (k seconds) -> honours seconds (bind get_PAGE_TIMEOUT k).
Proof. intros Hk s H. unfold bind, get_PAGE_TIMEOUT. rewrite H. now apply Hk. Qed.

Lemma honours_try_except {A : Type} (m : M A) (handler : exn -> option (M A)) :
  honours seconds m -> (forall e k, handler e = Some k -> honours seconds k) ->
  honours seconds (try_except m handler).
Proof.
  intros Hm Hh s H. unfold try_except. destruct (Hm s H) as (P1 & n1 & E1 & F1).
  destruct (m s) as [s1 [a|e]]; cbn [fst] in *.
  - split; [exact P1|]. now exists n1.
  - destruct (handler e) as [k|] eqn:K.
    + destruct (Hh e k K s1 P1) as (P2 & n2 & E2 & F2). split; [exact P2|].
      exists (n1 ++ n2). rewrite E2, E1, app_assoc. split; [reflexivity|].
      now apply Forall_app.
    + split; [exact P1|]. now exists n1.
Qed.

End PageTimeout.

(** Splits a [honours] goal along the structure of the computation. *)
Ltac honours_step :=
  match goal with
  | |- honours _ (ret _) => apply honours_ret
  | |- honours _ (raise _) => apply honours_raise
  | |- honours _ (bind get_PAGE_TIMEOUT _) => apply honours_get
  | |- honours _ (perform _) => apply honours_perform; intros; cbn; rewrite ?Z.eqb_refl; reflexivity
  | |- honours _ (print _) => apply honours_print
  | |- honours _ (log _ _ _) => apply honours_log
  | |- honours _ (input _) => apply honours_input
  | |- honours _ (bind _ _) => apply honours_bind; [|intros]
  | |- honours _ (pass_WebDriverException _) => unfold pass_WebDriverException
  | |- honours _ (try_except _ _) =>
      let e := fresh "e" in
      let k := fresh "k" in
      let H := fresh "H" in
      apply honours_try_except;
      [|intros e k H;
        repeat match type of H with
               | (if ?b then _ else _) = Some _ => destruct b
               end;
        inversion H; subst; clear H]
  | |- honours _ (if ?b then _ else _) => destruct b
  | |- honours _ (match ?x with Some _ => _ | None => _ end) => destruct x
  end.

Section PageTimeoutOfMain.
Context {R : Runtime}.

Lemma close_popup_tabs_honours (seconds : Z) (keep_handle : handle) :
  honours seconds (close_popup_tabs keep_handle).
Proof.
  unfold close_popup_tabs. repeat honours_step.
  induction a as [|h rest IH]; cbn [close_each]; repeat honours_step. exact IH.
Qed.

Lemma process_link_honours (seconds : Z) (url : str) (main_handle : handle) :
  honours seconds (process_link url main_handle).
Proof.
  assert (Hany : forall phrases, honours seconds (any_phrase phrases)).
  { induction phrases as [|p rest IH]; cbn [any_phrase]; repeat honours_step. exact IH. }
  assert (Hfind : forall sels, honours seconds (find_among sels)).
  { induction sels as [|p rest IH]; cbn [find_among]; unfold try_selector;
      repeat honours_step. exact IH. }
  unfold process_link, is_page_invalid, find_download_button, await_download_button.
  repeat first
    [ apply close_popup_tabs_honours | apply Hany | apply Hfind | honours_step ].
Qed.

Lemma for_links_honours (seconds : Z) (main_handle : handle) (total : nat)
    (links : list (nat * str)) :
  forall idx c s, PAGE_TIMEOUT s = seconds ->
    PAGE_TIMEOUT (fst (for_links main_handle total idx links c s)) = seconds
    /\ exists new,
         trace (fst (for_links main_handle total idx links c s)) = trace s ++ new
         /\ Forall (fun e => timeout_ok seconds e = true) new.
Proof.
  induction links as [|[line_no url] rest IH]; intros idx c s H; cbn [for_links].
  - split; [exact H|]. exists []. cbn. now rewrite app_nil_r.
  - set (m := bind _ _).
    assert (Hm : honours seconds m).
    { subst m. repeat honours_step. apply process_link_honours. }
    destruct (Hm s H) as (P1 & n1 & E1 & F1). clearbody m.
    destruct (m s) as [s1 [outcome|e]]; cbn [fst] in *.
    + assert (Ha : honours seconds (acknowledge outcome))
        by (unfold acknowledge; repeat honours_step).
      destruct (Ha s1 P1) as (P2 & n2 & E2 & F2).
      destruct (acknowledge outcome s1) as [s2 [[]|e2]]; cbn [fst] in *.
      * destruct (IH (S idx) (record_outcome line_no url outcome c) s2 P2)
          as (P3 & n3 & E3 & F3).
        split; [exact P3|]. exists (n1 ++ n2 ++ n3).
        rewrite E3, E2, E1, <- !app_assoc. split; [reflexivity|].
        repeat (apply Forall_app; split); assumption.
      * split; [exact P2|]. exists (n1 ++ n2).
        rewrite E2, E1, <- !app_assoc. split; [reflexivity|]. now apply Forall_app.
    + split; [exact P1|]. now exists n1.
Qed.

Lemma run_links_honours (seconds : Z) (main_handle : handle) (total : nat)
    (links : list (nat * str)) :
  honours seconds (run_links main_handle total links).
Proof.
  intros s H. unfold run_links.
  destruct (for_links_honours seconds main_handle total links 1
              {| success_count := 0; failed_links := [] |} s H)
    as (P1 & n1 & E1 & F1).
  destruct (for_links main_handle total 1 links _ s) as [s1 [c [[]|e]]];
    cbn [fst] in *.
  - split; [exact P1|]. now exists n1.
  - destruct (is_KeyboardInterrupt e).
    + split; [exact P1|]. eexists (n1 ++ [_; _]). split.
      * cbn. rewrite E1. now rewrite <- !app_assoc.
      * apply Forall_app. split; [exact F1 | repeat constructor].
    + split; [exact P1|]. now exists n1.
Qed.

Lemma shutdown_prompt_honours (seconds : Z) : honours seconds shutdown_prompt.
Proof.
  assert (H : forall fuel, honours seconds (shutdown_loop fuel)).
  { induction fuel as [|n IH]; cbn [shutdown_loop]; repeat honours_step; exact IH. }
  intros s. apply H.
Qed.

Lemma session_honours (seconds : Z) (total : nat) (links : list (nat * str)) :
  honours seconds (session total links).
Proof.
  unfold session.
  repeat first
    [ apply run_links_honours | apply shutdown_prompt_honours | honours_step ].
Qed.

(** X10.  The timeout of the command line is the one the run uses: in a
    run of [main], every launch of the browser is given [args.timeout] as
    page-load timeout, and every wait for the download button is a wait for
    the first selector with [args.timeout]. *)
Theorem timeout_argument_is_used (args : Namespace) (s : state) :
  exists new,
    trace (fst (main args s)) = trace s ++ new
    /\ Forall (fun e => timeout_ok (timeout args) e = true) new.
Proof.
  unfold main.
  match goal with
  | |- context [bind (set_PAGE_TIMEOUT _) ?k] =>
      assert (H : honours (timeout args) (k tt))
  end.
  { cbv beta zeta. unfold resolve_links_file.
    repeat first [ apply session_honours | honours_step ]. }
  unfold bind at 1 3. unfold set_PAGE_TIMEOUT. cbv beta iota.
  match goal with
  | |- context [trace (fst (?k ?x))] =>
      destruct (H x eq_refl) as (_ & new & E & F)
  end.
  exists new. split; [exact E | exact F].
Qed.

End PageTimeoutOfMain.

(** ** Joining files *)

Section JoiningFiles.

Let keep (p : nat * str) : bool := truthy (strip (snd p)).
Let link (p : nat * str) : nat * str := (fst p + 1, strip (snd p)).
Let links_from (k : nat) (l : list str) : list (nat * str) :=
  map link (filter keep (enumerate k l)).

Lemma enumerate_app (k : nat) (a b : list str) :
  enumerate k (a ++ b) = enumerate k a ++ enumerate (k + length a) b.
Proof.
  revert k; induction a as [|x a IH]; intros k; cbn.
  - now rewrite Nat.add_0_r.
  - rewrite IH. now replace (S k + length a) with (k + S (length a)) by lia.
Qed.

Lemma links_from_shift (k d : nat) (l : list str) :
  links_from (k + d) l = map (fun p => (fst p + d, snd p)) (links_from k l).
Proof.
  unfold links_from. revert k; induction l as [|x l IH]; intros k.
  - reflexivity.
  - cbn [enumerate filter].
    change (keep (k + d, x)) with (truthy (strip x)).
    change (keep (k, x)) with (truthy (strip x)).
    change (S (k + d)) with (S k + d).
    destruct (truthy (strip x)); cbn [map].
    + rewrite (IH (S k)). f_equal. unfold link. cbn [fst snd]. f_equal. lia.
    + apply (IH (S k)).
Qed.

Lemma blank_lines_no_links (lines : list str) :
  Forall (fun l => blank l = true) lines -> links_of lines = [].
Proof.
  intros B. apply length_zero_iff_nil. rewrite links_of_length.
  unfold non_blank_lines.
  induction B as [|l rest Hl _ IH]; [reflexivity|].
  cbn [filter]. rewrite Hl. exact IH.
Qed.

(** X11.  Numbering is by position in the whole file: the links of two
    lists of lines put end to end are the links of the first, then those of
    the second with the number of lines of the first added to their line
    numbers.  Blank lines at the end of a file change nothing. *)
Theorem links_of_joined_files (first second : list str) :
  links_of (first ++ second)
  = links_of first
    ++ map (fun p => (fst p + length first, snd p)) (links_of second)
  /\ (Forall (fun l => blank l = true) second ->
      links_of (first ++ second) = links_of first).
Proof.
  assert (E : links_of (first ++ second)
              = links_of first
                ++ map (fun p => (fst p + length first, snd p)) (links_of second)).
  { change (links_from 0 (first ++ second)
            = links_from 0 first
              ++ map (fun p => (fst p + length first, snd p)) (links_from 0 second)).
    rewrite <- links_from_shift. unfold links_from.
    now rewrite enumerate_app, filter_app, map_app. }
  split; [exact E|].
  intros B. rewrite E.
  rewrite (blank_lines_no_links second B). cbn. apply app_nil_r.
Qed.

End JoiningFiles.

(** ** Errors during the selector search *)

Section SearchErrors.
Context {R : Runtime}.

(** X12.  Only [NoSuchElementException] lets the selector search go on.
    When [find_element] raises it for a selector, the search goes on with the
    selectors that follow; any other exception ends the search at once, with
    the selectors that follow not tried, and [find_download_button] raises
    it. *)
Theorem search_stops_on_other_errors (sel : selector) (rest : list selector)
    (s s1 : state) (e : exn) :
  perform (FindElement sel) s = (s1, Raise e) ->
  find_among (sel :: rest) s
  = if is_NoSuchElementException e then find_among rest s1 else (s1, Raise e).
Proof.
  intros H. cbn [find_among]. unfold try_selector.
  match goal with
  | |- context [try_except ?m ?h] =>
      assert (E : m s = (s1, Raise e)) by (now apply bind_raise);
      pose proof (try_except_raise m h _ _ _ E) as Et
  end.
  cbv beta in Et.
  destruct (is_NoSuchElementException e) eqn:N; try rewrite N in Et.
  - erewrite bind_ok by exact Et. reflexivity.
  - erewrite bind_raise by exact Et. reflexivity.
Qed.

End SearchErrors.

Lemma search_stops_witness :
  @perform (scripted stale) _ (FindElement (lit "a#downloadButton")) (start stale [])
  = (stale_queried, Raise (WebDriverException (lit "stale element reference")))
  /\ @find_download_button (scripted stale) (start stale [])
     = (stale_queried, Raise (WebDriverException (lit "stale element reference"))).
Proof.
  assert (H : @perform (scripted stale) _ (FindElement (lit "a#downloadButton"))
                (start stale [])
              = (stale_queried, Raise (WebDriverException (lit "stale element reference"))))
    by (vm_compute; reflexivity).
  exact (conj H (@search_stops_on_other_errors (scripted stale) _ _ _ _ _ H)).
Defined.

(** ** The summary text *)

Section SummaryText.

Lemma nth_error_failure_lines (fs : list (nat * str * str)) (i : nat) (f : nat * str * str) :
  nth_error fs i = Some f ->
  nth_error (flat_map failure_lines fs) (2 * i) = nth_error (failure_lines f) 0
  /\ nth_error (flat_map failure_lines fs) (2 * i + 1) = nth_error (failure_lines f) 1.
Proof.
  revert i; induction fs as [|g fs IH]; intros [|i] H; try discriminate.
  - injection H as ->. split; reflexivity.
  - cbn in H. destruct (IH i H) as [E0 E1].
    replace (2 * S i) with (S (S (2 * i))) by lia.
    replace (S (S (2 * i)) + 1) with (S (S (2 * i + 1))) by lia.
    split; [exact E0 | exact E1].
Qed.

Lemma length_failure_lines (fs : list (nat * str * str)) :
  length (flat_map failure_lines fs) = 2 * length fs.
Proof. induction fs as [|f fs IH]; cbn [flat_map length app failure_lines]; lia. Qed.

(** X13.  The summary has ten heading lines and two closing lines, and
    between them, when there are failures, a blank line, a title and two
    lines for each failure in the order recorded: failure number [i] (from
    0) is on lines [12 + 2 i] and [13 + 2 i], with its line number
    right-aligned in four columns, its URL and its reason.  With no failure
    the block is left out altogether. *)
Theorem summary_lists_failures (timestamp path : str) (sm : summary) :
  length (summary_lines timestamp path sm)
  = 12 + match failures sm with
         | [] => 0
         | _ :: _ => 2 + 2 * length (failures sm)
         end
  /\ forall i line_no url reason,
       nth_error (failures sm) i = Some (line_no, url, reason) ->
       nth_error (summary_lines timestamp path sm) (12 + 2 * i)
       = Some (lit "    Line " ++ rjust 4 (str_of_nat line_no) ++ lit ": " ++ url)
       /\ nth_error (summary_lines timestamp path sm) (13 + 2 * i)
          = Some (lit "             Reason : " ++ reason).
Proof.
  unfold summary_lines. split.
  - rewrite !length_app. destruct (failures sm) as [|f fs].
    + reflexivity.
    + rewrite length_app, length_failure_lines. cbn [length]. lia.
  - intros i line_no url reason H.
    destruct (failures sm) as [|f fs] eqn:F; [destruct i; discriminate|].
    destruct (nth_error_failure_lines (f :: fs) i _ H) as [E0 E1].
    remember (flat_map failure_lines (f :: fs)) as block eqn:B.
    assert (L : 2 * i + 1 < length block).
    { subst block. rewrite length_failure_lines.
      assert (i < length (f :: fs)) by (apply nth_error_Some; congruence). lia. }
    replace (12 + 2 * i) with (S (S (S (S (S (S (S (S (S (S (S (S (2 * i)))))))))))))
      by lia.
    replace (13 + 2 * i)
      with (S (S (S (S (S (S (S (S (S (S (S (S (2 * i + 1)))))))))))))
      by lia.
    cbn [app nth_error]. split.
    + assert (L0 : 2 * i < length block) by lia.
      rewrite nth_error_app1 by exact L0. etransitivity; [exact E0 | reflexivity].
    + rewrite nth_error_app1 by exact L. etransitivity; [exact E1 | reflexivity].
Qed.

End SummaryText.

Example summary_of_a_failure :
  nth_error
    (summary_lines (lit "2024-05-01 10:00:00") (lit "links.txt")
       {| total_links := 2; processed := 1; successful := 0; failed_count := 1;
          failures := [(12, file_a, MSG_TIMED_OUT)] |}) 12
  = Some (lit "    Line   12: https://www.mediafire.com/file/a").
Proof. vm_compute. reflexivity. Qed.
